(** * The CRM GraphQL schema (crm/schema.py): validation and persistence

    A shallow embedding of the resolvers and mutations of [crm/schema.py]:
    the phone pattern and Python's [re.match], the text of a Django
    [ValidationError], decimal amounts, the tables of the store with the
    connection's transaction flags, and the four mutations with their
    [try]/[except] structure. *)

From Stdlib Require Import ZArith List String Ascii Bool Lia.
Import ListNotations.

Local Open Scope string_scope.
Local Open Scope Z_scope.

(** ** Python strings

    A [str] is modelled as a [string] whose characters are the code points
    0..255.  On that range the Unicode class of [\d] is exactly [0-9], and
    the printable characters are as in [is_printable] below. *)
Module PyStr.

Definition backslash : ascii := ascii_of_N 92.
Definition squote : ascii := ascii_of_N 39.
Definition dquote : ascii := ascii_of_N 34.
Definition newline : ascii := ascii_of_N 10.

Definition code (c : ascii) : N := N_of_ascii c.

(** [bool(s)] for a string: the empty string is falsy. *)
Definition truthy (s : string) : bool :=
  match s with
  | EmptyString => false
  | String _ _ => true
  end.

Fixpoint contains_char (c : ascii) (s : string) : bool :=
  match s with
  | EmptyString => false
  | String d r => Ascii.eqb c d || contains_char c r
  end.

Definition hex_digit (n : N) : ascii :=
  if (n <? 10)%N then ascii_of_N (48 + n) else ascii_of_N (87 + n).

(** [str.isprintable] on one character of the range 0..255: the controls,
    the no-break space and the soft hyphen are not printable. *)
Definition is_printable (c : ascii) : bool :=
  let n := code c in
  ((32 <=? n) && (n <? 127) || (161 <=? n) && negb (n =? 173))%N.

(** One character of [repr(s)], for the chosen quote character. *)
Definition repr_char (quote c : ascii) : string :=
  let n := code c in
  if Ascii.eqb c quote || Ascii.eqb c backslash then
    String backslash (String c EmptyString)
  else if (n =? 9)%N then String backslash "t"
  else if (n =? 10)%N then String backslash "n"
  else if (n =? 13)%N then String backslash "r"
  else if is_printable c then String c EmptyString
  else String backslash
         (String "x" (String (hex_digit (n / 16)) (String (hex_digit (n mod 16)) EmptyString))).

Fixpoint repr_body (quote : ascii) (s : string) : string :=
  match s with
  | EmptyString => EmptyString
  | String c r => repr_char quote c ++ repr_body quote r
  end.

(** [repr(s)]: single quotes, unless the string holds a single quote and no
    double quote. *)
Definition repr (s : string) : string :=
  let quote :=
    if contains_char squote s && negb (contains_char dquote s)
    then dquote else squote in
  String quote (repr_body quote s ++ String quote EmptyString).

(** [repr([s])], the text of a one-element list of strings. *)
Definition repr_list1 (s : string) : string :=
  "[" ++ repr s ++ "]".

End PyStr.

(** ** Regular expressions and [re.match]

    The part of Python's [re] syntax that the phone pattern uses.  A match
    state is the number of characters consumed and the rest of the subject;
    [run] returns every state a pattern can end in, so [re.match] succeeds
    exactly when that list is not empty. *)
Module Re.

Inductive regex : Type :=
| Bol                                  (* ^ *)
| Eol                                  (* $ *)
| Lit (c : ascii)                      (* an escaped or plain character *)
| Digit                                (* \d *)
| Class (cs : list ascii)              (* [...] *)
| Seq (r1 r2 : regex)
| Opt (r : regex)                      (* r? *)
| Rep (lo hi : nat) (r : regex).       (* r{lo,hi} *)

Definition state : Type := (nat * string)%type.

Definition is_digit (c : ascii) : bool :=
  let n := N_of_ascii c in ((48 <=? n) && (n <=? 57))%N.

Definition take_char (p : ascii -> bool) (s : state) : list state :=
  match snd s with
  | String c r => if p c then [(S (fst s), r)] else []
  | EmptyString => []
  end.

(** [times n f]: [f] applied [n] times in sequence. *)
Fixpoint times (n : nat) (f : state -> list state) (s : state) : list state :=
  match n with
  | O => [s]
  | S k => flat_map (times k f) (f s)
  end.

(** [upto n f]: [f] applied at most [n] times, the longest first. *)
Fixpoint upto (n : nat) (f : state -> list state) (s : state) : list state :=
  match n with
  | O => [s]
  | S k => flat_map (upto k f) (f s) ++ [s]
  end.

Fixpoint run (r : regex) (s : state) : list state :=
  match r with
  | Bol => match fst s with O => [s] | S _ => [] end
  | Eol =>
      (* without re.MULTILINE, $ matches at the end of the string and just
         before a newline that ends the string *)
      match snd s with
      | EmptyString => [s]
      | String c EmptyString => if Ascii.eqb c PyStr.newline then [s] else []
      | _ => []
      end
  | Lit c => take_char (Ascii.eqb c) s
  | Digit => take_char is_digit s
  | Class cs => take_char (fun c => existsb (Ascii.eqb c) cs) s
  | Seq r1 r2 => flat_map (run r2) (run r1 s)
  | Opt r1 => run r1 s ++ [s]
  | Rep lo hi r1 => flat_map (upto (hi - lo) (run r1)) (times lo (run r1) s)
  end.

(** [re.match(pattern, subject)] as a truth value. *)
Definition re_match (pattern : regex) (subject : string) : bool :=
  match run pattern (O, subject) with
  | [] => false
  | _ :: _ => true
  end.

Fixpoint seq_of (rs : list regex) : regex :=
  match rs with
  | [] => Opt Bol   (* unused: every pattern below has a last element *)
  | [r] => r
  | r :: rest => Seq r (seq_of rest)
  end.

Definition sep : regex := Opt (Class ["-"%char; " "%char]).

(** r'^(\+\d{1,3}[- ]?)?\d{3}[- ]?\d{3}[- ]?\d{4}$' *)
Definition phone_pattern : regex :=
  seq_of
    [ Bol;
      Opt (seq_of [Lit "+"%char; Rep 1 3 Digit; sep]);
      Rep 3 3 Digit; sep;
      Rep 3 3 Digit; sep;
      Rep 4 4 Digit;
      Eol ].

End Re.

(** ** Decimal amounts

    A finite [decimal.Decimal] is modelled by its value, as an integer
    number of units of one fixed decimal place; the special values are kept.
    Arithmetic runs in Python's default context: 28 significant digits,
    rounding half to even. *)
Module Dec.

Inductive Decimal : Type :=
| DNum (units : Z)
| DInf (negative : bool)
| DNaN (signaling : bool).

Definition prec_bound : Z := 10 ^ 28.

(** The number of low digits to drop so that the coefficient fits the
    precision. *)
Fixpoint excess_digits (fuel : nat) (k : Z) (m : Z) : Z :=
  match fuel with
  | O => k
  | S f => if m <? prec_bound then k else excess_digits f (k + 1) (m / 10)
  end.

Definition round_half_even (m k : Z) : Z :=
  let p := 10 ^ k in
  let q := m / p in
  let r := m mod p in
  let q' := if (2 * r >? p) || ((2 * r =? p) && Z.odd q) then q + 1 else q in
  q' * p.

(** Rounding of an exact result to the context precision. *)
Definition context_round (z : Z) : Z :=
  let m := Z.abs z in
  let k := excess_digits (Z.to_nat (Z.log2 m)) 0 m in
  Z.sgn z * round_half_even m k.

Inductive arith_result : Type :=
| Value (d : Decimal)
| InvalidOperation.

(** [a + b] *)
Definition add (a b : Decimal) : arith_result :=
  match a, b with
  | DNaN true, _ | _, DNaN true => InvalidOperation
  | DNaN false, _ | _, DNaN false => Value (DNaN false)
  | DInf s, DInf t => if Bool.eqb s t then Value (DInf s) else InvalidOperation
  | DInf s, DNum _ | DNum _, DInf s => Value (DInf s)
  | DNum x, DNum y => Value (DNum (context_round (x + y)))
  end.

(** [a <= 0]; an ordering comparison with a NaN signals. *)
Definition le_zero (a : Decimal) : option bool :=
  match a with
  | DNum x => Some (x <=? 0)
  | DInf s => Some s
  | DNaN _ => None
  end.

End Dec.

(** [l.append(x)] *)
Definition append {A : Type} (l : list A) (x : A) : list A := (l ++ [x])%list.

(** ** The data model

    [crm/models.py] is not among the sources.  The records carry the fields
    that [schema.py] and the seed script pass to the model constructors; an
    instance that was never saved has no primary key. *)
Module Customer.
Record t : Type := make
  { id : option Z; name : string; email : string; phone : option string }.
End Customer.

Module Product.
Record t : Type := make
  { id : option Z; name : string; price : Dec.Decimal; stock : Z }.
End Product.

Module Order.
Record t : Type := make
  { id : option Z; customer : option Z; total_amount : Dec.Decimal }.
End Order.

Module OrderItem.
Record t : Type := make
  { id : option Z; order : option Z; product : option Z;
    quantity : Z; unit_price : Dec.Decimal }.
End OrderItem.

(** The four tables, rows in insertion order. *)
Record Store : Type := mkStore
  { customers : list Customer.t;
    products : list Product.t;
    orders : list Order.t;
    order_items : list OrderItem.t }.

Definition empty_store : Store := mkStore [] [] [] [].

Inductive Row : Type :=
| RCustomer (c : Customer.t)
| RProduct (p : Product.t)
| ROrder (o : Order.t)
| ROrderItem (i : OrderItem.t).

(** What [schema.py] uses of the model declarations and of the database:
    the outcome of [full_clean] on an instance ([None], or the text of the
    [ValidationError] it raises), the conversion of a GraphQL [ID] to a
    primary key (or the text of the exception the conversion raises), and
    the writes the database refuses (with the text of the exception). *)
Record Backend : Type := mkBackend
  { customer_full_clean : Store -> Customer.t -> option string;
    product_full_clean : Store -> Product.t -> option string;
    pk_to_python : string -> string + Z;
    write_fault : Store -> Row -> option string }.

(** ** Exceptions *)
Inductive Model : Type := MCustomer | MProduct | MOrder.

Inductive exn : Type :=
| ValidationError (message : string)     (* raise ValidationError(message) *)
| ModelValidationError (text : string)   (* raised by full_clean; text is str(e) *)
| DoesNotExist (m : Model)
| AttributeError (text : string)
| OtherException (text : string).        (* any other class; text is str(e) *)

Definition model_name (m : Model) : string :=
  match m with
  | MCustomer => "Customer"
  | MProduct => "Product"
  | MOrder => "Order"
  end.

(** [str(e)].  The text of a [ValidationError] built from one message is
    the [repr] of the list of its messages. *)
Definition str (e : exn) : string :=
  match e with
  | ValidationError m => PyStr.repr_list1 m
  | ModelValidationError t => t
  | DoesNotExist m => model_name m ++ " matching query does not exist."
  | AttributeError t => t
  | OtherException t => t
  end.

(** [isinstance(e, ValidationError)] *)
Definition is_ValidationError (e : exn) : bool :=
  match e with
  | ValidationError _ | ModelValidationError _ => true
  | _ => false
  end.

Definition invalid_operation_text : string :=
  "[<class 'decimal.InvalidOperation'>]".

Definition broken_transaction_text : string :=
  "An error occurred in the current transaction. You can't execute queries until the end of the 'atomic' block.".

Definition none_attribute_text : string :=
  "'NoneType' object has no attribute 'email'".

(** ** The database connection as a state and exception monad *)
Record Connection : Type := mkConnection
  { tables : Store; in_atomic_block : bool; needs_rollback : bool }.

Inductive outcome (A : Type) : Type :=
| Return (a : A)
| Raise (e : exn).
Arguments Return {A} a.
Arguments Raise {A} e.

Definition DB (A : Type) : Type := Connection -> outcome A * Connection.

Definition ret {A : Type} (a : A) : DB A := fun c => (Return a, c).

Definition raise {A : Type} (e : exn) : DB A := fun c => (Raise e, c).

Definition bind {A B : Type} (m : DB A) (k : A -> DB B) : DB B :=
  fun c =>
    match m c with
    | (Return a, c') => k a c'
    | (Raise e, c') => (Raise e, c')
    end.

Notation "x <- m ;; k" := (bind m (fun x => k))
  (at level 61, m at next level, right associativity).

Definition lift {A : Type} (o : outcome A) : DB A := fun c => (o, c).

(** [try: body except ...: handler]; a handler re-raises what its clauses
    do not match. *)
Definition try_except {A : Type} (body : DB A) (handler : exn -> DB A) : DB A :=
  fun c =>
    match body c with
    | (Return a, c') => (Return a, c')
    | (Raise e, c') => handler e c'
    end.

(** A query.  Inside an atomic block that is marked for rollback no query
    runs: the cursor raises [TransactionManagementError]. *)
Definition execute {A : Type} (q : Store -> A) : DB A :=
  fun c =>
    if needs_rollback c
    then (Raise (OtherException broken_transaction_text), c)
    else (Return (q (tables c)), c).

(** An INSERT as [Model.save] issues it, under
    [mark_for_rollback_on_error]: an exception raised inside an atomic
    block marks the block for rollback and goes on to the caller. *)
Definition insert (B : Backend) (r : Row) (put : Store -> Store) : DB unit :=
  fun c =>
    if needs_rollback c
    then (Raise (OtherException broken_transaction_text), c)
    else
      match write_fault B (tables c) r with
      | Some text =>
          (Raise (OtherException text),
           mkConnection (tables c) (in_atomic_block c) (in_atomic_block c))
      | None =>
          (Return tt, mkConnection (put (tables c)) (in_atomic_block c) false)
      end.

(** [with transaction.atomic(): body], the outermost block: the writes of
    the body are kept when it ends normally and is not marked for rollback,
    and are undone otherwise; an exception goes on to the caller. *)
Definition atomic {A : Type} (body : DB A) : DB A :=
  fun c =>
    let undone := mkConnection (tables c) (in_atomic_block c) false in
    match body (mkConnection (tables c) true (needs_rollback c)) with
    | (Return a, c') =>
        if needs_rollback c'
        then (Return a, undone)
        else (Return a, mkConnection (tables c') (in_atomic_block c) false)
    | (Raise e, _) => (Raise e, undone)
    end.

Definition idle (st : Store) : Connection := mkConnection st false false.

(** A request: the body runs on an idle connection. *)
Definition run {A : Type} (m : DB A) (st : Store) : outcome A * Store :=
  let (o, c) := m (idle st) in (o, tables c).

(** ** The object-relational layer *)
Module Orm.

Definition pk_is (k : Z) (pk : option Z) : bool :=
  match pk with
  | Some j => j =? k
  | None => false
  end.

(** The key the database gives the next row of a table. *)
Definition next_pk (pks : list (option Z)) : Z :=
  1 + fold_right (fun pk m => match pk with Some k => Z.max k m | None => m end) 0 pks.

(** [Model.objects.get(id=value)].  A null value is looked up as
    [id IS NULL], which no row satisfies; a value that does not convert to
    a key raises at once. *)
Definition get {R : Type} (B : Backend) (m : Model)
    (table : Store -> list R) (pk : R -> option Z) (value : option string) : DB R :=
  match value with
  | None => _ <- execute (fun _ => tt) ;; raise (DoesNotExist m)
  | Some s =>
      match pk_to_python B s with
      | inl text => raise (OtherException text)
      | inr k =>
          found <- execute (fun st => find (fun r => pk_is k (pk r)) (table st)) ;;
          match found with
          | Some r => ret r
          | None => raise (DoesNotExist m)
          end
      end
  end.

(** [Customer.objects.filter(email=value).exists()] *)
Definition email_exists (value : string) : DB bool :=
  execute (fun st => existsb (fun c => String.eqb (Customer.email c) value) (customers st)).

Definition customer_full_clean (B : Backend) (c : Customer.t) : DB unit :=
  verdict <- execute (fun st => customer_full_clean B st c) ;;
  match verdict with
  | Some text => raise (ModelValidationError text)
  | None => ret tt
  end.

Definition product_full_clean (B : Backend) (p : Product.t) : DB unit :=
  verdict <- execute (fun st => product_full_clean B st p) ;;
  match verdict with
  | Some text => raise (ModelValidationError text)
  | None => ret tt
  end.

Definition add_customer (c : Customer.t) (st : Store) : Store :=
  mkStore (append (customers st) c) (products st) (orders st) (order_items st).

Definition add_product (p : Product.t) (st : Store) : Store :=
  mkStore (customers st) (append (products st) p) (orders st) (order_items st).

Definition add_order (o : Order.t) (st : Store) : Store :=
  mkStore (customers st) (products st) (append (orders st) o) (order_items st).

Definition add_order_item (i : OrderItem.t) (st : Store) : Store :=
  mkStore (customers st) (products st) (orders st) (append (order_items st) i).

(** [instance.save()] on an instance without a key: the row is inserted
    and the instance gets its key. *)
Definition save_customer (B : Backend) (c : Customer.t) : DB Customer.t :=
  fun conn =>
    let row := Customer.make
                 (Some (next_pk (map Customer.id (customers (tables conn)))))
                 (Customer.name c) (Customer.email c) (Customer.phone c) in
    (_ <- insert B (RCustomer row) (add_customer row) ;; ret row) conn.

Definition save_product (B : Backend) (p : Product.t) : DB Product.t :=
  fun conn =>
    let row := Product.make
                 (Some (next_pk (map Product.id (products (tables conn)))))
                 (Product.name p) (Product.price p) (Product.stock p) in
    (_ <- insert B (RProduct row) (add_product row) ;; ret row) conn.

Definition save_order (B : Backend) (o : Order.t) : DB Order.t :=
  fun conn =>
    let row := Order.make
                 (Some (next_pk (map Order.id (orders (tables conn)))))
                 (Order.customer o) (Order.total_amount o) in
    (_ <- insert B (ROrder row) (add_order row) ;; ret row) conn.

(** [OrderItem.objects.create(...)] *)
Definition create_order_item (B : Backend) (i : OrderItem.t) : DB OrderItem.t :=
  fun conn =>
    let row := OrderItem.make
                 (Some (next_pk (map OrderItem.id (order_items (tables conn)))))
                 (OrderItem.order i) (OrderItem.product i)
                 (OrderItem.quantity i) (OrderItem.unit_price i) in
    (_ <- insert B (ROrderItem row) (add_order_item row) ;; ret row) conn.

End Orm.

(** ** Input types *)
Module CustomerInput.
Record t : Type := make
  { name : string; email : string; phone : option string }.
End CustomerInput.

Module ProductInput.
Record t : Type := make
  { name : string; price : Dec.Decimal; stock : option Z }.
End ProductInput.

(** [product_ids] is a list of nullable ids; [order_date] is never read. *)
Module OrderInput.
Record t : Type := make
  { customer_id : string; product_ids : list (option string) }.
End OrderInput.

(** ** Queries *)
Module Query.

Definition resolve_hello : string := "Hello, GraphQL!".

Definition resolve_customer (B : Backend) (st : Store) (id : string)
  : outcome Customer.t * Store :=
  run (Orm.get B MCustomer customers Customer.id (Some id)) st.

Definition resolve_product (B : Backend) (st : Store) (id : string)
  : outcome Product.t * Store :=
  run (Orm.get B MProduct products Product.id (Some id)) st.

Definition resolve_order (B : Backend) (st : Store) (id : string)
  : outcome Order.t * Store :=
  run (Orm.get B MOrder orders Order.id (Some id)) st.

End Query.

(** ** Mutations *)
Module CreateCustomer.

Record t : Type := make
  { customer : option Customer.t; message : option string; success : bool }.

Definition invalid_phone : string :=
  "Invalid phone number format. Use +1234567890 or 123-456-7890".

Definition validate_phone (phone : option string) : outcome bool :=
  match phone with
  | Some p =>
      if PyStr.truthy p then
        if negb (Re.re_match Re.phone_pattern p)
        then Raise (ValidationError invalid_phone)
        else Return true
      else Return true
  | None => Return true
  end.

Definition body (B : Backend) (input : CustomerInput.t) : DB t :=
  try_except
    (taken <- Orm.email_exists (CustomerInput.email input) ;;
     _ <- (if taken : bool then raise (ValidationError "Email already exists")
           else ret tt) ;;
     _ <- lift (validate_phone (CustomerInput.phone input)) ;;
     let customer := Customer.make None (CustomerInput.name input)
                       (CustomerInput.email input) (CustomerInput.phone input) in
     _ <- Orm.customer_full_clean B customer ;;
     customer <- Orm.save_customer B customer ;;
     ret (make (Some customer) (Some "Customer created successfully") true))
    (fun e =>
       if is_ValidationError e
       then ret (make None (Some (str e)) false)
       else ret (make None (Some ("Error creating customer: " ++ str e)) false)).

Definition mutate (B : Backend) (st : Store) (input : CustomerInput.t)
  : outcome t * Store :=
  run (body B input) st.

End CreateCustomer.

Module BulkCreateCustomers.

Record t : Type := make
  { customers : list Customer.t; errors : list string; success : bool }.

(** The two lists the loop appends to. *)
Definition lists : Type := (list Customer.t * list string)%type.

(** [input_data.email]; a null entry has no attribute. *)
Definition email_of (input_data : option CustomerInput.t) : DB string :=
  match input_data with
  | Some i => ret (CustomerInput.email i)
  | None => raise (AttributeError none_attribute_text)
  end.

Definition phone_of (input_data : option CustomerInput.t) : DB (option string) :=
  match input_data with
  | Some i => ret (CustomerInput.phone i)
  | None => raise (AttributeError none_attribute_text)
  end.

Definition name_of (input_data : option CustomerInput.t) : DB string :=
  match input_data with
  | Some i => ret (CustomerInput.name i)
  | None => raise (AttributeError none_attribute_text)
  end.

(** One turn of the loop. *)
Definition step (B : Backend) (acc : lists) (input_data : option CustomerInput.t)
  : DB lists :=
  try_except
    (email <- email_of input_data ;;
     taken <- Orm.email_exists email ;;
     if taken : bool then
       email <- email_of input_data ;;
       ret (fst acc, append (snd acc) ("Email " ++ email ++ " already exists"))
     else
       phone <- phone_of input_data ;;
       _ <- lift (CreateCustomer.validate_phone phone) ;;
       name <- name_of input_data ;;
       email <- email_of input_data ;;
       phone <- phone_of input_data ;;
       let customer := Customer.make None name email phone in
       _ <- Orm.customer_full_clean B customer ;;
       customer <- Orm.save_customer B customer ;;
       ret (append (fst acc) customer, snd acc))
    (fun e =>
       email <- email_of input_data ;;
       if is_ValidationError e
       then ret (fst acc, append (snd acc) ("Validation error for " ++ email ++ ": " ++ str e))
       else ret (fst acc, append (snd acc) ("Error creating customer " ++ email ++ ": " ++ str e))).

Fixpoint loop (B : Backend) (inputs : list (option CustomerInput.t)) (acc : lists)
  : DB lists :=
  match inputs with
  | [] => ret acc
  | input_data :: rest => acc' <- step B acc input_data ;; loop B rest acc'
  end.

Definition body (B : Backend) (inputs : list (option CustomerInput.t)) : DB t :=
  acc <- atomic (loop B inputs ([], [])) ;;
  ret (make (fst acc) (snd acc) (0 <? Z.of_nat (List.length (fst acc)))).

Definition mutate (B : Backend) (st : Store) (inputs : list (option CustomerInput.t))
  : outcome t * Store :=
  run (body B inputs) st.

End BulkCreateCustomers.

Module CreateProduct.

Record t : Type := make
  { product : option Product.t; message : option string; success : bool }.

Definition body (B : Backend) (input : ProductInput.t) : DB t :=
  try_except
    (_ <- match Dec.le_zero (ProductInput.price input) with
          | None => raise (OtherException invalid_operation_text)
          | Some true => raise (ValidationError "Price must be positive")
          | Some false => ret tt
          end ;;
     let stock := match ProductInput.stock input with
                  | Some s => s
                  | None => 0
                  end in
     _ <- (if stock <? 0 then raise (ValidationError "Stock cannot be negative")
           else ret tt) ;;
     let product := Product.make None (ProductInput.name input)
                      (ProductInput.price input) stock in
     _ <- Orm.product_full_clean B product ;;
     product <- Orm.save_product B product ;;
     ret (make (Some product) (Some "Product created successfully") true))
    (fun e =>
       if is_ValidationError e
       then ret (make None (Some (str e)) false)
       else ret (make None (Some ("Error creating product: " ++ str e)) false)).

Definition mutate (B : Backend) (st : Store) (input : ProductInput.t)
  : outcome t * Store :=
  run (body B input) st.

End CreateProduct.

Module CreateOrder.

Record t : Type := make
  { order : option Order.t; message : option string; success : bool }.

(** [f"{product_id}"] *)
Definition format_id (product_id : option string) : string :=
  match product_id with
  | Some s => s
  | None => "None"
  end.

(** The product list and the running total of the first loop. *)
Definition resolved : Type := (list Product.t * Dec.Decimal)%type.

Definition resolve_step (B : Backend) (acc : resolved) (product_id : option string)
  : DB resolved :=
  try_except
    (product <- Orm.get B MProduct products Product.id product_id ;;
     match Dec.add (snd acc) (Product.price product) with
     | Dec.Value total => ret (append (fst acc) product, total)
     | Dec.InvalidOperation => raise (OtherException invalid_operation_text)
     end)
    (fun e =>
       match e with
       | DoesNotExist MProduct =>
           raise (ValidationError
                    ("Product with ID " ++ format_id product_id ++ " does not exist"))
       | _ => raise e
       end).

Fixpoint resolve_products (B : Backend) (product_ids : list (option string))
    (acc : resolved) : DB resolved :=
  match product_ids with
  | [] => ret acc
  | product_id :: rest =>
      acc' <- resolve_step B acc product_id ;; resolve_products B rest acc'
  end.

Fixpoint create_items (B : Backend) (order : Order.t) (products : list Product.t)
  : DB unit :=
  match products with
  | [] => ret tt
  | product :: rest =>
      _ <- Orm.create_order_item B
             (OrderItem.make None (Order.id order) (Product.id product) 1
                (Product.price product)) ;;
      create_items B order rest
  end.

(** The inner [try] around the customer lookup. *)
Definition find_customer (B : Backend) (customer_id : string) : DB Customer.t :=
  try_except
    (Orm.get B MCustomer customers Customer.id (Some customer_id))
    (fun e =>
       match e with
       | DoesNotExist MCustomer => raise (ValidationError "Customer does not exist")
       | _ => raise e
       end).

(** The atomic block: the order row, then one item per product. *)
Definition place_order (B : Backend) (customer : Customer.t) (acc : resolved)
  : DB Order.t :=
  atomic
    (order <- Orm.save_order B (Order.make None (Customer.id customer) (snd acc)) ;;
     _ <- create_items B order (fst acc) ;;
     ret order).

(** The statements inside the outer [try]. *)
Definition attempt (B : Backend) (input : OrderInput.t) : DB t :=
  customer <- find_customer B (OrderInput.customer_id input) ;;
  acc <- resolve_products B (OrderInput.product_ids input) ([], Dec.DNum 0) ;;
  _ <- match fst acc with
       | [] => raise (ValidationError "At least one product is required")
       | _ :: _ => ret tt
       end ;;
  order <- place_order B customer acc ;;
  ret (make (Some order) (Some "Order created successfully") true).

Definition body (B : Backend) (input : OrderInput.t) : DB t :=
  try_except (attempt B input)
    (fun e =>
       if is_ValidationError e
       then ret (make None (Some (str e)) false)
       else ret (make None (Some ("Error creating order: " ++ str e)) false)).

Definition mutate (B : Backend) (st : Store) (input : OrderInput.t)
  : outcome t * Store :=
  run (body B input) st.

End CreateOrder.

(** ** A concrete backend

    Modelled from the spec: [crm/models.py] and the database are not among
    the sources.  The spec's data model gives a customer a unique email and
    an optional phone, and a product a strictly positive decimal price and a
    non-negative stock; keys are the integers the database assigns.  This
    backend validates exactly that, converts the ids that are plain decimal
    numerals, and refuses no write.  The phone is optional, so [full_clean]
    has nothing to say about a phone that is null or empty: Django skips the
    validation of a field that may be blank when its value is empty, and a
    field that may not be blank would refuse the null phone as well. *)
Module SpecModels.

Definition customer_full_clean (st : Store) (c : Customer.t) : option string :=
  if existsb (fun d => String.eqb (Customer.email d) (Customer.email c)) (customers st)
  then Some "{'email': ['Customer with this Email already exists.']}"
  else None.

Definition product_full_clean (st : Store) (p : Product.t) : option string :=
  match Product.price p with
  | Dec.DNum z =>
      if z <=? 0 then Some "{'price': ['Ensure this value is greater than 0.']}"
      else if Product.stock p <? 0
           then Some "{'stock': ['Ensure this value is greater than or equal to 0.']}"
           else None
  | _ => Some "{'price': ['Enter a number.']}"
  end.

Fixpoint numeral (acc : Z) (s : string) : option Z :=
  match s with
  | EmptyString => Some acc
  | String c r =>
      if Re.is_digit c
      then numeral (10 * acc + Z.of_N (N_of_ascii c) - 48) r
      else None
  end.

Definition pk_to_python (s : string) : string + Z :=
  match s with
  | EmptyString => inl ("Field 'id' expected a number but got " ++ PyStr.repr s ++ ".")
  | _ =>
      match numeral 0 s with
      | Some k => inr k
      | None => inl ("Field 'id' expected a number but got " ++ PyStr.repr s ++ ".")
      end
  end.

Definition backend : Backend :=
  mkBackend customer_full_clean product_full_clean pk_to_python (fun _ _ => None).

(** The same backend over a database that refuses the order items of one
    product. *)
Definition refusing_items_of (pk : Z) : Backend :=
  mkBackend customer_full_clean product_full_clean pk_to_python
    (fun _ r =>
       match r with
       | ROrderItem i =>
           if Orm.pk_is pk (OrderItem.product i) then Some "database is locked" else None
       | _ => None
       end).

(** The same backend over a database that refuses the customers of one
    name. *)
Definition refusing_customer (name : string) : Backend :=
  mkBackend customer_full_clean product_full_clean pk_to_python
    (fun _ r =>
       match r with
       | RCustomer c =>
           if String.eqb (Customer.name c) name then Some "database is locked" else None
       | _ => None
       end).

(** The rows of the seed script, with amounts in cents. *)
Definition seeded : Store :=
  mkStore
    [ Customer.make (Some 1) "Alice Johnson" "alice@example.com" (Some "+1234567890");
      Customer.make (Some 2) "Bob Smith" "bob@example.com" (Some "123-456-7890");
      Customer.make (Some 3) "Carol Davis" "carol@example.com" (Some "+44555123456") ]
    [ Product.make (Some 1) "Laptop" (Dec.DNum 99999) 10;
      Product.make (Some 2) "Mouse" (Dec.DNum 2999) 50;
      Product.make (Some 3) "Keyboard" (Dec.DNum 7999) 25;
      Product.make (Some 4) "Monitor" (Dec.DNum 29999) 5 ]
    [ Order.make (Some 1) (Some 1) (Dec.DNum 102998);
      Order.make (Some 2) (Some 2) (Dec.DNum 37998) ]
    [ OrderItem.make (Some 1) (Some 1) (Some 1) 1 (Dec.DNum 99999);
      OrderItem.make (Some 2) (Some 1) (Some 2) 1 (Dec.DNum 2999);
      OrderItem.make (Some 3) (Some 2) (Some 4) 1 (Dec.DNum 29999);
      OrderItem.make (Some 4) (Some 2) (Some 3) 1 (Dec.DNum 7999) ].

End SpecModels.

(** ** Vocabulary of the statements *)

(** Some persisted customer has this email. *)
Definition email_taken (st : Store) (e : string) : Prop :=
  exists c, In c (customers st) /\ Customer.email c = e.

(** The id converts to a key, and [r] is the row of the table with that
    key. *)
Definition resolves {R : Type} (B : Backend) (table : list R)
    (pk : R -> option Z) (value : option string) (r : R) : Prop :=
  exists s k, value = Some s /\ pk_to_python B s = inr k /\
              find (fun x => Orm.pk_is k (pk x)) table = Some r.

(** The id is null, or converts to a key that no row of the table has. *)
Definition missing {R : Type} (B : Backend) (table : list R)
    (pk : R -> option Z) (value : option string) : Prop :=
  value = None \/
  exists s k, value = Some s /\ pk_to_python B s = inr k /\
              find (fun x => Orm.pk_is k (pk x)) table = None.

(** The database accepts every write. *)
Definition accepts_writes (B : Backend) : Prop :=
  forall st r, write_fault B st r = None.

Definition is_number (d : Dec.Decimal) : Prop := exists z, d = Dec.DNum z.

(** Every stored price is a finite number. *)
Definition finite_prices (st : Store) : Prop :=
  Forall (fun p => is_number (Product.price p)) (products st).

Definition Zsum (zs : list Z) : Z := fold_right Z.add 0 zs.

Definition Zsum_abs (zs : list Z) : Z := fold_right (fun z a => Z.abs z + a) 0 zs.

(** An order item without its own key. *)
Definition item_fields (i : OrderItem.t) : option Z * option Z * Z * Dec.Decimal :=
  (OrderItem.order i, OrderItem.product i, OrderItem.quantity i, OrderItem.unit_price i).

Fixpoint lefts {A B : Type} (l : list (A + B)) : list A :=
  match l with
  | [] => []
  | inl a :: r => a :: lefts r
  | inr _ :: r => lefts r
  end.

Fixpoint rights {A B : Type} (l : list (A + B)) : list B :=
  match l with
  | [] => []
  | inl _ :: r => rights r
  | inr b :: r => b :: rights r
  end.

(** The customer carries the fields of the input entry and has a key. *)
Definition created_from (i : CustomerInput.t) (c : Customer.t) : Prop :=
  Customer.id c <> None /\
  Customer.name c = CustomerInput.name i /\
  Customer.email c = CustomerInput.email i /\
  Customer.phone c = CustomerInput.phone i.

(** The error string of a failed entry starts with one of the three
    openings of the loop, each naming the entry's email. *)
Definition error_for (i : CustomerInput.t) (e : string) : Prop :=
  e = "Email " ++ CustomerInput.email i ++ " already exists" \/
  (exists t, e = "Validation error for " ++ CustomerInput.email i ++ ": " ++ t) \/
  (exists t, e = "Error creating customer " ++ CustomerInput.email i ++ ": " ++ t).

(** The instance that the customer mutations build from an input. *)
Definition instance_of (i : CustomerInput.t) : Customer.t :=
  Customer.make None (CustomerInput.name i) (CustomerInput.email i)
    (CustomerInput.phone i).

(** The row that saving the instance of an input adds to the store. *)
Definition customer_row (st : Store) (i : CustomerInput.t) : Customer.t :=
  Customer.make (Some (Orm.next_pk (map Customer.id (customers st))))
    (CustomerInput.name i) (CustomerInput.email i) (CustomerInput.phone i).

Definition stock_or_default (i : ProductInput.t) : Z :=
  match ProductInput.stock i with
  | Some s => s
  | None => 0
  end.

Definition product_instance (i : ProductInput.t) : Product.t :=
  Product.make None (ProductInput.name i) (ProductInput.price i) (stock_or_default i).

Definition product_row (st : Store) (i : ProductInput.t) : Product.t :=
  Product.make (Some (Orm.next_pk (map Product.id (products st))))
    (ProductInput.name i) (ProductInput.price i) (stock_or_default i).

(** The total after adding the amounts one by one, each sum rounded by the
    context as the loop of createOrder does. *)
Definition running_total (t : Z) (zs : list Z) : Z :=
  fold_left (fun acc z => Dec.context_round (acc + z)) zs t.

(** The fields of the item that createOrder makes for a product. *)
Definition item_for (o : Order.t) (p : Product.t)
  : option Z * option Z * Z * Dec.Decimal :=
  (Order.id o, Product.id p, 1, Product.price p).

(** What one entry of a bulk call contributes: a created customer or an
    error string. *)
Definition outcome_of (i : CustomerInput.t) (o : Customer.t + string) : Prop :=
  match o with
  | inl c => created_from i c
  | inr e => error_for i e
  end.

(** No two persisted customers share an email. *)
Definition unique_emails (st : Store) : Prop :=
  NoDup (map Customer.email (customers st)).

(** A price above zero and a stock that is not negative. *)
Definition sellable (p : Product.t) : Prop :=
  Dec.le_zero (Product.price p) = Some false /\ 0 <= Product.stock p.

(** [k] is the key of a row of the table. *)
Definition has_key {R : Type} (pk : R -> option Z) (table : list R) (k : option Z) : Prop :=
  k <> None /\ exists r, In r table /\ pk r = k.

(** Every order points to a persisted customer, and every order item to a
    persisted order and a persisted product. *)
Definition references_hold (st : Store) : Prop :=
  Forall (fun o => has_key Customer.id (customers st) (Order.customer o)) (orders st) /\
  Forall (fun i => has_key Order.id (orders st) (OrderItem.order i) /\
                   has_key Product.id (products st) (OrderItem.product i))
         (order_items st).

(** The entries given to createCustomer one call after the other: the
    customers created and the store at the end. *)
Fixpoint one_by_one (B : Backend) (st : Store) (rows : list CustomerInput.t)
  : list Customer.t * Store :=
  match rows with
  | [] => ([], st)
  | i :: rest =>
      let (o, st1) := CreateCustomer.mutate B st i in
      let (cs, st2) := one_by_one B st1 rest in
      (match o with
       | Return r =>
           match CreateCustomer.customer r with
           | Some c => c :: cs
           | None => cs
           end
       | Raise _ => cs
       end, st2)
  end.

(** The store with more customers at the end of the table. *)
Definition with_customers (st : Store) (new : list Customer.t) : Store :=
  mkStore (customers st ++ new) (products st) (orders st) (order_items st).

(** Every character of the string satisfies [p]. *)
Fixpoint all_chars (p : ascii -> bool) (s : string) : bool :=
  match s with
  | EmptyString => true
  | String c r => p c && all_chars p r
  end.

(** The number of digits in the string. *)
Fixpoint digit_count (s : string) : nat :=
  match s with
  | EmptyString => O
  | String c r => if Re.is_digit c then S (digit_count r) else digit_count r
  end.

Definition is_separator (c : ascii) : bool :=
  existsb (Ascii.eqb c) ["-"%char; " "%char].

(** A digit, a hyphen or a space. *)
Definition local_char (c : ascii) : bool := Re.is_digit c || is_separator c.

(** The subject ends here, or with one newline. *)
Definition ends_subject (rest : string) : Prop :=
  rest = EmptyString \/ rest = String PyStr.newline EmptyString.

(** The word [w] has between [l] and [h] characters, all satisfying [P],
    and between [dl] and [dh] digits. *)
Definition within (P : ascii -> bool) (l h dl dh : nat) (w : string) : Prop :=
  (l <= String.length w <= h)%nat /\
  (dl <= digit_count w <= dh)%nat /\
  all_chars P w = true.

(** Every way the matcher [f] can go on consumes a word that is [within]
    the bounds. *)
Definition consumes (P : ascii -> bool) (l h dl dh : nat)
    (f : Re.state -> list Re.state) : Prop :=
  forall n s n' s',
    In (n', s') (f (n, s)) ->
    exists w, s = w ++ s' /\ n' = (n + String.length w)%nat /\ within P l h dl dh w.

(** The matcher [f] can consume exactly the word [w] in front of [rest],
    wherever it stands. *)
Definition accepts (f : Re.state -> list Re.state) (w rest : string) : Prop :=
  forall n, In ((n + String.length w)%nat, rest) (f (n, w ++ rest)).

(** Nothing, or one hyphen or space. *)
Definition optional_separator (s : string) : Prop :=
  s = EmptyString \/ exists c, is_separator c = true /\ s = String c EmptyString.

(** [k] digits and nothing else. *)
Definition digits (k : nat) (s : string) : Prop :=
  all_chars Re.is_digit s = true /\ String.length s = k.

(** Nothing, or a plus sign, one to three digits and an optional
    separator. *)
Definition country_prefix (s : string) : Prop :=
  s = EmptyString \/
  exists cc s0, s = String "+"%char (cc ++ s0) /\
                all_chars Re.is_digit cc = true /\
                (1 <= String.length cc <= 3)%nat /\
                optional_separator s0.

(** The entry can be saved in the store [st]: its email is not taken, its
    phone passes the check and the model validation accepts the instance. *)
Definition valid_entry (B : Backend) (st : Store) (i : CustomerInput.t) : Prop :=
  ~ email_taken st (CustomerInput.email i) /\
  CreateCustomer.validate_phone (CustomerInput.phone i) = Return true /\
  customer_full_clean B st (instance_of i) = None.




(** ** Basic facts about the monad and the layer below the mutations *)

Lemma email_exists_true st e :
  email_taken st e ->
  existsb (fun c => String.eqb (Customer.email c) e) (customers st) = true.
Proof.
  intros [c [Hin He]]. apply existsb_exists. exists c. split; [exact Hin|].
  now apply String.eqb_eq.
Qed.

Lemma email_exists_false st e :
  ~ email_taken st e ->
  existsb (fun c => String.eqb (Customer.email c) e) (customers st) = false.
Proof.
  intros H. destruct (existsb _ _) eqn:E; [|reflexivity].
  exfalso. apply H. apply existsb_exists in E. destruct E as [c [Hin He]].
  exists c. split; [exact Hin|]. now apply String.eqb_eq.
Qed.

Lemma get_connection {R : Type} B m (table : Store -> list R) pk value c :
  snd (Orm.get B m table pk value c) = c.
Proof.
  unfold Orm.get. destruct value as [s|].
  - destruct (pk_to_python B s) as [t|k]; [reflexivity|].
    unfold bind, execute. destruct (needs_rollback c); [reflexivity|].
    destruct (find _ _); reflexivity.
  - unfold bind, execute. destruct (needs_rollback c); reflexivity.
Qed.

Lemma get_resolves {R : Type} B m (table : Store -> list R) pk value r st :
  resolves B (table st) pk value r ->
  forall a, Orm.get B m table pk value (mkConnection st a false)
            = (Return r, mkConnection st a false).
Proof.
  intros [s [k [-> [Hk Hf]]]] a. unfold Orm.get. rewrite Hk.
  unfold bind, execute. cbn. now rewrite Hf.
Qed.

Lemma get_missing {R : Type} B m (table : Store -> list R) pk value st :
  missing B (table st) pk value ->
  forall a, Orm.get B m table pk value (mkConnection st a false)
            = (Raise (DoesNotExist m), mkConnection st a false).
Proof.
  intros [-> | [s [k [-> [Hk Hf]]]]] a; unfold Orm.get.
  - reflexivity.
  - rewrite Hk. unfold bind, execute. cbn. now rewrite Hf.
Qed.

(** ** Point queries *)

(** C9: a point query (customer, product or order by id) whose id resolves
    to no persisted row raises: the resolver returns neither a row nor an
    envelope, and the fault is the model's DoesNotExist whenever the id
    converts to a key.  The store is left as it was. *)
Theorem point_query_not_found_raises (B : Backend) (st : Store) (id : string) :
  ((forall r, ~ resolves B (customers st) Customer.id (Some id) r) ->
   exists e, Query.resolve_customer B st id = (Raise e, st) /\
             (forall k, pk_to_python B id = inr k -> e = DoesNotExist MCustomer)) /\
  ((forall r, ~ resolves B (products st) Product.id (Some id) r) ->
   exists e, Query.resolve_product B st id = (Raise e, st) /\
             (forall k, pk_to_python B id = inr k -> e = DoesNotExist MProduct)) /\
  ((forall r, ~ resolves B (orders st) Order.id (Some id) r) ->
   exists e, Query.resolve_order B st id = (Raise e, st) /\
             (forall k, pk_to_python B id = inr k -> e = DoesNotExist MOrder)).
Proof.
  unfold Query.resolve_customer, Query.resolve_product, Query.resolve_order,
    run, Orm.get, resolves.
  destruct (pk_to_python B id) as [t|k] eqn:Hk.
  - repeat split; intros _; eexists;
      (split; [reflexivity | intros k' Hk'; discriminate]).
  - unfold bind, execute, idle; cbn.
    repeat split; intros H.
    + destruct (find _ (customers st)) as [r|] eqn:Hf.
      * exfalso. apply (H r). now exists id, k.
      * eexists; split; reflexivity.
    + destruct (find _ (products st)) as [r|] eqn:Hf.
      * exfalso. apply (H r). now exists id, k.
      * eexists; split; reflexivity.
    + destruct (find _ (orders st)) as [r|] eqn:Hf.
      * exfalso. apply (H r). now exists id, k.
      * eexists; split; reflexivity.
Qed.

(** The customer query of the seeded store at an id that no customer has. *)
Lemma point_query_not_found_raises_witness :
  exists e,
    Query.resolve_customer SpecModels.backend SpecModels.seeded "7"
    = (Raise e, SpecModels.seeded) /\
    (forall k, pk_to_python SpecModels.backend "7" = inr k ->
               e = DoesNotExist MCustomer).
Proof.
  apply (proj1 (point_query_not_found_raises SpecModels.backend SpecModels.seeded "7")).
  intros r [s [k [H1 [H2 H3]]]].
  injection H1 as <-. vm_compute in H2. injection H2 as <-.
  vm_compute in H3. discriminate.
Defined.

(** ** Customer creation *)

(** C3: when the email of the input already belongs to a persisted
    customer, createCustomer returns customer=null, success=false and a
    message that is not null, and the store, so the number of customers, is
    unchanged. *)
Theorem create_customer_duplicate_email (B : Backend) (st : Store)
    (input : CustomerInput.t) :
  email_taken st (CustomerInput.email input) ->
  exists r,
    CreateCustomer.mutate B st input = (Return r, st) /\
    CreateCustomer.customer r = None /\
    CreateCustomer.success r = false /\
    CreateCustomer.message r = Some "['Email already exists']" /\
    CreateCustomer.message r <> None.
Proof.
  intros H. apply email_exists_true in H.
  unfold CreateCustomer.mutate, run, CreateCustomer.body, try_except, bind,
    Orm.email_exists, execute, idle. cbn. rewrite H. cbn.
  eexists. split; [reflexivity|]. cbn. repeat split. discriminate.
Qed.

(** The seeded store and a second customer with Alice's email. *)
Lemma create_customer_duplicate_email_witness :
  exists r,
    CreateCustomer.mutate SpecModels.backend SpecModels.seeded
      (CustomerInput.make "Alice" "alice@example.com" None)
    = (Return r, SpecModels.seeded) /\
    CreateCustomer.customer r = None /\
    CreateCustomer.success r = false /\
    CreateCustomer.message r = Some "['Email already exists']" /\
    CreateCustomer.message r <> None.
Proof.
  apply create_customer_duplicate_email.
  exists (Customer.make (Some 1) "Alice Johnson" "alice@example.com"
            (Some "+1234567890")).
  split; [left; reflexivity | reflexivity].
Defined.

(** createCustomer, branch by branch. *)
Lemma create_customer_cases (B : Backend) (st : Store) (input : CustomerInput.t) :
  CreateCustomer.mutate B st input =
  if existsb (fun c => String.eqb (Customer.email c) (CustomerInput.email input))
       (customers st)
  then (Return (CreateCustomer.make None (Some "['Email already exists']") false), st)
  else
    match CreateCustomer.validate_phone (CustomerInput.phone input) with
    | Raise e =>
        (Return (CreateCustomer.make None
                   (Some (if is_ValidationError e then str e
                          else "Error creating customer: " ++ str e)) false), st)
    | Return _ =>
        match customer_full_clean B st (instance_of input) with
        | Some t => (Return (CreateCustomer.make None (Some t) false), st)
        | None =>
            match write_fault B st (RCustomer (customer_row st input)) with
            | Some t =>
                (Return (CreateCustomer.make None
                           (Some ("Error creating customer: " ++ t)) false), st)
            | None =>
                (Return (CreateCustomer.make (Some (customer_row st input))
                           (Some "Customer created successfully") true),
                 Orm.add_customer (customer_row st input) st)
            end
        end
    end.
Proof.
  unfold CreateCustomer.mutate, run, CreateCustomer.body, try_except, bind,
    Orm.email_exists, execute, idle, lift, Orm.customer_full_clean,
    Orm.save_customer, insert, bind, execute, instance_of, customer_row.
  cbn.
  destruct (existsb _ _); [reflexivity|]. cbn.
  destruct (CreateCustomer.validate_phone _) as [v|e]; cbn.
  - destruct (customer_full_clean B st _) as [t|]; cbn; [reflexivity|].
    destruct (write_fault B st _) as [t|]; reflexivity.
  - destruct (is_ValidationError e); reflexivity.
Qed.

Lemma validate_phone_cases (p : string) :
  p <> EmptyString ->
  CreateCustomer.validate_phone (Some p) =
  if Re.re_match Re.phone_pattern p then Return true
  else Raise (ValidationError CreateCustomer.invalid_phone).
Proof.
  intros Hp. unfold CreateCustomer.validate_phone.
  destruct p as [|c r]; [congruence|]. cbn [PyStr.truthy].
  destruct (Re.re_match _ _); reflexivity.
Qed.

(** C4, as the code has it: for a phone that is given and not the empty
    string, with a fresh email, an instance that the model validation
    accepts and a row that the database accepts, createCustomer fails
    exactly when [re.match] finds the phone does not match the pattern; so
    the phone 123-456-7890 succeeds and the phone 123-45-6789 fails. *)
Theorem create_customer_phone_format (B : Backend) (st : Store)
    (input : CustomerInput.t) (p : string) :
  CustomerInput.phone input = Some p ->
  p <> EmptyString ->
  ~ email_taken st (CustomerInput.email input) ->
  customer_full_clean B st (instance_of input) = None ->
  write_fault B st (RCustomer (customer_row st input)) = None ->
  exists r st',
    CreateCustomer.mutate B st input = (Return r, st') /\
    (CreateCustomer.success r = false <-> Re.re_match Re.phone_pattern p = false) /\
    (p = "123-456-7890" -> CreateCustomer.success r = true) /\
    (p = "123-45-6789" -> CreateCustomer.success r = false).
Proof.
  intros Hphone Hp Hfresh Hclean Hwrite.
  rewrite create_customer_cases, (email_exists_false _ _ Hfresh), Hphone,
    (validate_phone_cases _ Hp), Hclean, Hwrite.
  destruct (Re.re_match Re.phone_pattern p) eqn:Hm.
  - eexists _, _. split; [reflexivity|]. cbn. repeat split; try congruence.
    intros ->. vm_compute in Hm. discriminate.
  - eexists _, _. split; [reflexivity|]. cbn. repeat split; try congruence.
    intros ->. vm_compute in Hm. discriminate.
Qed.

(** A new customer of the seeded store with the phone 123-456-7890. *)
Lemma create_customer_phone_format_witness :
  exists r st',
    CreateCustomer.mutate SpecModels.backend SpecModels.seeded
      (CustomerInput.make "Dan" "dan@example.com" (Some "123-456-7890"))
    = (Return r, st') /\
    (CreateCustomer.success r = false
     <-> Re.re_match Re.phone_pattern "123-456-7890" = false) /\
    ("123-456-7890" = "123-456-7890" -> CreateCustomer.success r = true) /\
    ("123-456-7890" = "123-45-6789" -> CreateCustomer.success r = false).
Proof.
  apply (create_customer_phone_format SpecModels.backend SpecModels.seeded
           (CustomerInput.make "Dan" "dan@example.com" (Some "123-456-7890"))).
  - reflexivity.
  - discriminate.
  - intros [c [Hin He]]. cbn in Hin.
    destruct Hin as [<-|[<-|[<-|[]]]]; discriminate.
  - reflexivity.
  - reflexivity.
Defined.

(** C4, as stated, fails at the empty phone: the string is given and does
    not match the pattern, the email is fresh, and the customer is
    created. *)
Lemma create_customer_empty_phone_accepted :
  let input := CustomerInput.make "Dan" "dan@example.com" (Some EmptyString) in
  CustomerInput.phone input = Some EmptyString /\
  Re.re_match Re.phone_pattern EmptyString = false /\
  CreateCustomer.validate_phone (Some EmptyString) = Return true /\
  ~ email_taken SpecModels.seeded (CustomerInput.email input) /\
  exists r st',
    CreateCustomer.mutate SpecModels.backend SpecModels.seeded input = (Return r, st') /\
    CreateCustomer.success r = true /\
    In (customer_row SpecModels.seeded input) (customers st').
Proof.
  cbv zeta. split; [reflexivity|]. split; [reflexivity|]. split; [reflexivity|].
  split.
  - intros [c [Hin He]]. cbn in Hin.
    destruct Hin as [<-|[<-|[<-|[]]]]; discriminate.
  - eexists _, _. split; [vm_compute; reflexivity|]. split; [reflexivity|].
    vm_compute. tauto.
Qed.

(** The format that the comment and the error message of [validate_phone]
    name first, +1234567890, does not match the pattern: after the plus
    sign the pattern wants eleven to thirteen digits.  The seed script's
    first customer could not be created through the mutation. *)
Lemma documented_plus_format_rejected :
  Re.re_match Re.phone_pattern "+1234567890" = false /\
  forall B st name email,
    ~ email_taken st email ->
    CreateCustomer.mutate B st (CustomerInput.make name email (Some "+1234567890"))
    = (Return (CreateCustomer.make None
                 (Some "['Invalid phone number format. Use +1234567890 or 123-456-7890']")
                 false), st).
Proof.
  split; [reflexivity|]. intros B st name email Hfresh.
  rewrite create_customer_cases. cbn [CustomerInput.email CustomerInput.phone].
  rewrite (email_exists_false _ _ Hfresh). reflexivity.
Qed.

(** ** Product creation *)

(** createProduct, branch by branch. *)
Lemma create_product_cases (B : Backend) (st : Store) (input : ProductInput.t) :
  CreateProduct.mutate B st input =
  match Dec.le_zero (ProductInput.price input) with
  | None =>
      (Return (CreateProduct.make None
                 (Some ("Error creating product: " ++ invalid_operation_text)) false), st)
  | Some true =>
      (Return (CreateProduct.make None (Some "['Price must be positive']") false), st)
  | Some false =>
      if stock_or_default input <? 0
      then (Return (CreateProduct.make None (Some "['Stock cannot be negative']") false), st)
      else
        match product_full_clean B st (product_instance input) with
        | Some t => (Return (CreateProduct.make None (Some t) false), st)
        | None =>
            match write_fault B st (RProduct (product_row st input)) with
            | Some t =>
                (Return (CreateProduct.make None
                           (Some ("Error creating product: " ++ t)) false), st)
            | None =>
                (Return (CreateProduct.make (Some (product_row st input))
                           (Some "Product created successfully") true),
                 Orm.add_product (product_row st input) st)
            end
        end
  end.
Proof.
  unfold CreateProduct.mutate, run, CreateProduct.body, try_except, bind,
    idle, Orm.product_full_clean, Orm.save_product, insert, bind, execute,
    product_instance, product_row, stock_or_default.
  cbn.
  destruct (Dec.le_zero _) as [[|]|]; cbn; try reflexivity.
  destruct (_ <? 0); cbn; [reflexivity|].
  destruct (product_full_clean B st _) as [t|]; cbn; [reflexivity|].
  destruct (write_fault B st _) as [t|]; reflexivity.
Qed.

(** C7: createProduct always answers with an envelope.  A price that is at
    most zero fails (product=null, success=false), as do the prices 0 and
    -5; a given stock below zero fails; a failed call leaves the store as
    it was.  Otherwise, when the model validation accepts the instance and
    the database accepts the row, the product is persisted and returned,
    and an omitted stock is persisted as 0. *)
Theorem create_product_contract (B : Backend) (st : Store) (input : ProductInput.t) :
  exists r st',
    CreateProduct.mutate B st input = (Return r, st') /\
    (Dec.le_zero (ProductInput.price input) = Some true ->
     CreateProduct.product r = None /\ CreateProduct.success r = false /\ st' = st) /\
    (ProductInput.price input = Dec.DNum 0 \/ ProductInput.price input = Dec.DNum (-5) ->
     CreateProduct.product r = None /\ CreateProduct.success r = false /\ st' = st) /\
    (forall s, ProductInput.stock input = Some s -> s < 0 ->
     CreateProduct.product r = None /\ CreateProduct.success r = false /\ st' = st) /\
    (Dec.le_zero (ProductInput.price input) = Some false ->
     (forall s, ProductInput.stock input = Some s -> 0 <= s) ->
     product_full_clean B st (product_instance input) = None ->
     write_fault B st (RProduct (product_row st input)) = None ->
     CreateProduct.product r = Some (product_row st input) /\
     CreateProduct.success r = true /\
     st' = Orm.add_product (product_row st input) st /\
     In (product_row st input) (products st') /\
     (ProductInput.stock input = None -> Product.stock (product_row st input) = 0)).
Proof.
  rewrite create_product_cases.
  assert (Hfail : forall m,
    exists (r : CreateProduct.t) (st' : Store),
      (Return (CreateProduct.make None m false), st) = (Return r, st') /\
      CreateProduct.product r = None /\ CreateProduct.success r = false /\ st' = st).
  { intros m. eexists _, _. split; [reflexivity|]. cbn. auto. }
  destruct (Dec.le_zero (ProductInput.price input)) as [[|]|] eqn:Hle.
  - destruct (Hfail (Some "['Price must be positive']")) as [r [st' [E F]]].
    exists r, st'. split; [exact E|].
    split; [|split; [|split]]; try (intros; exact F).
    intros H; discriminate H.
  - destruct (stock_or_default input <? 0) eqn:Hs.
    + destruct (Hfail (Some "['Stock cannot be negative']")) as [r [st' [E F]]].
      exists r, st'. split; [exact E|].
      split; [|split; [|split]]; try (intros; exact F).
      intros _ Hstock. exfalso. apply Z.ltb_lt in Hs.
      unfold stock_or_default in Hs.
      destruct (ProductInput.stock input) as [s|];
        [specialize (Hstock s eq_refl)|]; lia.
    + apply Z.ltb_ge in Hs.
      destruct (product_full_clean B st _) as [t|] eqn:Hc.
      * destruct (Hfail (Some t)) as [r [st' [E F]]].
        exists r, st'. split; [exact E|].
        split; [|split; [|split]]; try (intros; exact F).
        intros _ _ H. discriminate H.
      * destruct (write_fault B st _) as [t|] eqn:Hw.
        -- destruct (Hfail (Some ("Error creating product: " ++ t))) as [r [st' [E F]]].
           exists r, st'. split; [exact E|].
           split; [|split; [|split]]; try (intros; exact F).
           intros _ _ _ H. discriminate H.
        -- eexists _, _. split; [reflexivity|]. cbn.
           split; [|split; [|split]].
           ++ intros H. discriminate H.
           ++ intros [H|H]; rewrite H in Hle; discriminate Hle.
           ++ intros s E1 E2. exfalso. unfold stock_or_default in Hs.
              rewrite E1 in Hs. lia.
           ++ intros _ _ _ _. repeat split.
              ** apply in_or_app. right. left. reflexivity.
              ** intros E. unfold stock_or_default. now rewrite E.
  - destruct (Hfail (Some ("Error creating product: " ++ invalid_operation_text)))
      as [r [st' [E F]]].
    exists r, st'. split; [exact E|].
    split; [|split; [|split]]; try (intros; exact F).
    intros H; discriminate H.
Qed.

(** A product of 29.99 without a stock, on the seeded store. *)
Lemma create_product_contract_witness :
  exists r st',
    CreateProduct.mutate SpecModels.backend SpecModels.seeded
      (ProductInput.make "Pen" (Dec.DNum 2999) None) = (Return r, st') /\
    CreateProduct.product r
    = Some (Product.make (Some 5) "Pen" (Dec.DNum 2999) 0) /\
    CreateProduct.success r = true /\
    In (Product.make (Some 5) "Pen" (Dec.DNum 2999) 0) (products st').
Proof.
  destruct (create_product_contract SpecModels.backend SpecModels.seeded
              (ProductInput.make "Pen" (Dec.DNum 2999) None))
    as [r [st' [E [_ [_ [_ H]]]]]].
  exists r, st'. split; [exact E|].
  destruct H as [H1 [H2 [H3 [H4 H5]]]].
  - reflexivity.
  - intros s Hs. discriminate.
  - reflexivity.
  - reflexivity.
  - split; [exact H1|]. split; [exact H2|]. exact H4.
Defined.

(** ** Order creation *)

Ltac get_eq E :=
  match goal with
  | |- context [Orm.get ?B ?m ?t ?pk ?v ?c] =>
      let H := fresh "Hconn" in
      pose proof (get_connection B m t pk v c) as H;
      destruct (Orm.get B m t pk v c) as [[?r|?e] ?c1] eqn:E;
      cbn in H; subst
  end.

Lemma get_raises {R : Type} B m (table : Store -> list R) pk value c e c' :
  Orm.get B m table pk value c = (Raise e, c') ->
  e = DoesNotExist m \/ exists t, e = OtherException t.
Proof.
  unfold Orm.get, bind, execute, raise, ret.
  destruct value as [s|].
  - destruct (pk_to_python B s) as [t|k].
    + intros H. injection H as <- _. right. now exists t.
    + destruct (needs_rollback c).
      * intros H. injection H as <- _. right. eexists. reflexivity.
      * destruct (find _ _); intros H; [discriminate|].
        injection H as <- _. now left.
  - destruct (needs_rollback c); intros H; injection H as <- _.
    + right. eexists. reflexivity.
    + now left.
Qed.

Lemma find_customer_connection B id c :
  snd (CreateOrder.find_customer B id c) = c.
Proof.
  unfold CreateOrder.find_customer, try_except. get_eq E; [reflexivity|].
  destruct e as [| |[]| |]; reflexivity.
Qed.

Lemma find_customer_raises B id c e c' :
  CreateOrder.find_customer B id c = (Raise e, c') ->
  e = ValidationError "Customer does not exist" \/ exists t, e = OtherException t.
Proof.
  unfold CreateOrder.find_customer, try_except.
  destruct (Orm.get _ _ _ _ _ c) as [[r|e0] c1] eqn:E; [discriminate|].
  apply get_raises in E. destruct E as [->|[t ->]]; cbn; intros H;
    injection H as <- _; [now left | right; now exists t].
Qed.

Lemma resolve_step_connection B acc product_id c :
  snd (CreateOrder.resolve_step B acc product_id c) = c.
Proof.
  unfold CreateOrder.resolve_step, try_except, bind. get_eq E.
  - destruct (Dec.add _ _); reflexivity.
  - destruct e as [| |[]| |]; reflexivity.
Qed.

Lemma resolve_products_connection B product_ids :
  forall acc c, snd (CreateOrder.resolve_products B product_ids acc c) = c.
Proof.
  induction product_ids as [|x rest IH]; intros acc c; [reflexivity|].
  cbn. unfold bind.
  pose proof (resolve_step_connection B acc x c) as H.
  destruct (CreateOrder.resolve_step B acc x c) as [[acc'|e] c1]; cbn in H; subst.
  - apply IH.
  - reflexivity.
Qed.

(** What one turn of the product loop can end in. *)
Lemma resolve_step_outcome B acc product_id c :
  match fst (CreateOrder.resolve_step B acc product_id c) with
  | Return acc' => exists p, fst acc' = append (fst acc) p
  | Raise e =>
      e = ValidationError
            ("Product with ID " ++ CreateOrder.format_id product_id ++ " does not exist")
      \/ exists t, e = OtherException t
  end.
Proof.
  unfold CreateOrder.resolve_step, try_except, bind.
  destruct (Orm.get _ _ _ _ _ c) as [[p|e] c1] eqn:E.
  - destruct (Dec.add _ _); cbn.
    + now exists p.
    + right. eexists. reflexivity.
  - apply get_raises in E. destruct E as [->|[t ->]]; cbn.
    + now left.
    + right. now exists t.
Qed.

Lemma resolve_products_outcome B product_ids :
  forall acc c,
    match fst (CreateOrder.resolve_products B product_ids acc c) with
    | Return acc' =>
        exists ps, fst acc' = (fst acc ++ ps)%list /\
                   List.length ps = List.length product_ids
    | Raise e =>
        (exists product_id,
            In product_id product_ids /\
            e = ValidationError
                  ("Product with ID " ++ CreateOrder.format_id product_id
                   ++ " does not exist"))
        \/ exists t, e = OtherException t
    end.
Proof.
  induction product_ids as [|x rest IH]; intros acc c.
  - cbn. exists []. split; [now rewrite app_nil_r | reflexivity].
  - cbn [CreateOrder.resolve_products]. unfold bind.
    pose proof (resolve_step_outcome B acc x c) as H.
    destruct (CreateOrder.resolve_step B acc x c) as [[acc'|e] c1]; cbn in H.
    + destruct H as [p Hp]. specialize (IH acc' c1).
      destruct (fst (CreateOrder.resolve_products B rest acc' c1)) as [acc''|e].
      * destruct IH as [ps [E L]]. exists (p :: ps). split.
        -- rewrite E, Hp. unfold append. now rewrite <- app_assoc.
        -- cbn. now rewrite L.
      * destruct IH as [[y [Hin ->]]|[t ->]].
        -- left. exists y. split; [now right | reflexivity].
        -- right. now exists t.
    + cbn. destruct H as [->|[t ->]].
      * left. exists x. split; [now left | reflexivity].
      * right. now exists t.
Qed.

Lemma insert_raises B r put c e c' :
  insert B r put c = (Raise e, c') -> exists t, e = OtherException t.
Proof.
  unfold insert. destruct (needs_rollback c).
  - intros H. injection H as <- _. eexists. reflexivity.
  - destruct (write_fault B _ r) as [t|]; intros H; [|discriminate].
    injection H as <- _. now exists t.
Qed.

Lemma create_order_item_raises B i c e c' :
  Orm.create_order_item B i c = (Raise e, c') -> exists t, e = OtherException t.
Proof.
  unfold Orm.create_order_item, bind, ret.
  destruct (insert B _ _ c) as [[u|e0] c1] eqn:E; [discriminate|].
  intros H. injection H as <- _. exact (insert_raises _ _ _ _ _ _ E).
Qed.

Lemma create_items_raises B order products :
  forall c e c',
    CreateOrder.create_items B order products c = (Raise e, c') ->
    exists t, e = OtherException t.
Proof.
  induction products as [|p rest IH]; intros c e c'; cbn; [discriminate|].
  unfold bind.
  destruct (Orm.create_order_item B _ c) as [[i|e0] c1] eqn:E.
  - apply IH.
  - intros H. injection H as <- _. exact (create_order_item_raises _ _ _ _ _ E).
Qed.

Lemma bind_raise {A C : Type} (m : DB A) (k : A -> DB C) c e c' :
  bind m k c = (Raise e, c') ->
  m c = (Raise e, c') \/
  exists a c1, m c = (Return a, c1) /\ k a c1 = (Raise e, c').
Proof.
  unfold bind. destruct (m c) as [[a|e0] c1]; intros H.
  - right. now exists a, c1.
  - left. injection H as <- <-. reflexivity.
Qed.

Lemma bind_return {A C : Type} (m : DB A) (k : A -> DB C) c b c' :
  bind m k c = (Return b, c') ->
  exists a c1, m c = (Return a, c1) /\ k a c1 = (Return b, c').
Proof.
  unfold bind. destruct (m c) as [[a|e0] c1]; intros H; [|discriminate].
  now exists a, c1.
Qed.

Lemma atomic_raise {A : Type} (body : DB A) c e c' :
  atomic body c = (Raise e, c') ->
  (exists c1, body (mkConnection (tables c) true (needs_rollback c)) = (Raise e, c1)) /\
  c' = mkConnection (tables c) (in_atomic_block c) false.
Proof.
  unfold atomic.
  destruct (body _) as [[a|e0] c1].
  - destruct (needs_rollback c1); discriminate.
  - intros H. injection H as <- <-. split; [now exists c1 | reflexivity].
Qed.

(** The atomic block raises only what a write raises, and a raise undoes
    its writes. *)
Lemma place_order_raises B customer acc c e c' :
  CreateOrder.place_order B customer acc c = (Raise e, c') ->
  (exists t, e = OtherException t) /\
  c' = mkConnection (tables c) (in_atomic_block c) false.
Proof.
  unfold CreateOrder.place_order. intros H.
  apply atomic_raise in H. destruct H as [[c1 E] ->]. split; [|reflexivity].
  apply bind_raise in E. destruct E as [E|[o [c2 [_ E]]]].
  - unfold Orm.save_order in E. apply bind_raise in E.
    destruct E as [E|[u [c3 [_ E]]]]; [|discriminate].
    exact (insert_raises _ _ _ _ _ _ E).
  - apply bind_raise in E. destruct E as [E|[u [c3 [_ E]]]]; [|discriminate].
    exact (create_items_raises _ _ _ _ _ _ E).
Qed.

Lemma create_order_cases (B : Backend) (st : Store) (input : OrderInput.t) :
  CreateOrder.mutate B st input =
  match CreateOrder.attempt B input (idle st) with
  | (Return r, c') => (Return r, tables c')
  | (Raise e, c') =>
      (Return (CreateOrder.make None
                 (Some (if is_ValidationError e then str e
                        else "Error creating order: " ++ str e)) false),
       tables c')
  end.
Proof.
  unfold CreateOrder.mutate, run, CreateOrder.body, try_except.
  destruct (CreateOrder.attempt B input (idle st)) as [[r|e] c']; [reflexivity|].
  destruct (is_ValidationError e); reflexivity.
Qed.

Lemma attempt_return B input c r c' :
  CreateOrder.attempt B input c = (Return r, c') ->
  exists o, r = CreateOrder.make (Some o) (Some "Order created successfully") true.
Proof.
  unfold CreateOrder.attempt. intros H.
  apply bind_return in H. destruct H as [cu [c1 [_ H]]].
  apply bind_return in H. destruct H as [acc [c2 [_ H]]].
  apply bind_return in H. destruct H as [u [c3 [_ H]]].
  apply bind_return in H. destruct H as [o [c4 [_ H]]].
  injection H as <- _. now exists o.
Qed.

(** An exception inside the outer try leaves the tables as they were. *)
Lemma attempt_raise_unchanged B input st e c' :
  CreateOrder.attempt B input (idle st) = (Raise e, c') -> tables c' = st.
Proof.
  unfold CreateOrder.attempt. intros H.
  apply bind_raise in H. destruct H as [H|[cu [c1 [H1 H]]]].
  { pose proof (find_customer_connection B (OrderInput.customer_id input) (idle st)) as F.
    rewrite H in F. cbn in F. now subst. }
  pose proof (find_customer_connection B (OrderInput.customer_id input) (idle st)) as F.
  rewrite H1 in F. cbn in F. subst c1.
  apply bind_raise in H. destruct H as [H|[acc [c2 [H2 H]]]].
  { pose proof (resolve_products_connection B (OrderInput.product_ids input)
                  ([], Dec.DNum 0) (idle st)) as F.
    rewrite H in F. cbn in F. now subst. }
  pose proof (resolve_products_connection B (OrderInput.product_ids input)
                ([], Dec.DNum 0) (idle st)) as F.
  rewrite H2 in F. cbn in F. subst c2.
  apply bind_raise in H. destruct H as [H|[u [c3 [H3 H]]]].
  { destruct (fst acc); [|discriminate]. injection H as _ <-. reflexivity. }
  assert (c3 = idle st) as ->.
  { destruct (fst acc); [discriminate|]. now injection H3 as _ <-. }
  apply bind_raise in H. destruct H as [H|[o [c4 [_ H]]]]; [|discriminate].
  apply place_order_raises in H. destruct H as [_ ->]. reflexivity.
Qed.

(** C8: for an input whose product_ids list is not empty, the exception of
    the empty-product-list check, At least one product is required, is
    never the one raised inside the outer try: the call fails earlier, at
    the customer or at a product, or gets past the check with a product
    list that is not empty. *)
Theorem at_least_one_product_unreachable (B : Backend) (input : OrderInput.t)
    (c : Connection) :
  OrderInput.product_ids input <> [] ->
  fst (CreateOrder.attempt B input c)
  <> Raise (ValidationError "At least one product is required").
Proof.
  intros Hne Hfst.
  destruct (CreateOrder.attempt B input c) as [o c'] eqn:H. cbn in Hfst. subst o.
  unfold CreateOrder.attempt in H.
  apply bind_raise in H. destruct H as [H|[cu [c1 [_ H]]]].
  { apply find_customer_raises in H. destruct H as [H|[t H]]; discriminate H. }
  apply bind_raise in H. destruct H as [H|[acc [c2 [H2 H]]]].
  { pose proof (resolve_products_outcome B (OrderInput.product_ids input)
                  ([], Dec.DNum 0) c1) as F.
    rewrite H in F. cbn in F.
    destruct F as [[y [_ F]]|[t F]]; discriminate F. }
  pose proof (resolve_products_outcome B (OrderInput.product_ids input)
                ([], Dec.DNum 0) c1) as F.
  rewrite H2 in F. cbn in F. destruct F as [ps [Eps Lps]].
  apply bind_raise in H. destruct H as [H|[u [c3 [_ H]]]].
  { rewrite Eps in H. destruct ps as [|p ps'].
    - destruct (OrderInput.product_ids input); [congruence | discriminate Lps].
    - discriminate H. }
  apply bind_raise in H. destruct H as [H|[o [c4 [_ H]]]]; [|discriminate].
  apply place_order_raises in H. destruct H as [[t H] _]. discriminate H.
Qed.

(** An order for the first customer of the seeded store and two products. *)
Lemma at_least_one_product_unreachable_witness :
  fst (CreateOrder.attempt SpecModels.backend
         (OrderInput.make "1" [Some "2"; Some "3"]) (idle SpecModels.seeded))
  <> Raise (ValidationError "At least one product is required").
Proof.
  apply at_least_one_product_unreachable. discriminate.
Defined.

(** The check itself is live: an empty list with a customer that resolves
    ends in it. *)
Lemma empty_product_list_rejected (B : Backend) (st : Store) (id : string) (cu : Customer.t) :
  resolves B (customers st) Customer.id (Some id) cu ->
  CreateOrder.attempt B (OrderInput.make id []) (idle st)
  = (Raise (ValidationError "At least one product is required"), idle st).
Proof.
  intros H. unfold CreateOrder.attempt, bind, CreateOrder.find_customer, try_except.
  cbn [OrderInput.customer_id OrderInput.product_ids].
  unfold idle. rewrite (get_resolves B MCustomer customers Customer.id _ cu st H false).
  reflexivity.
Qed.

Lemma resolve_products_app B l1 l2 :
  forall acc c,
    CreateOrder.resolve_products B (l1 ++ l2) acc c =
    bind (CreateOrder.resolve_products B l1 acc)
         (fun acc' => CreateOrder.resolve_products B l2 acc') c.
Proof.
  induction l1 as [|x l1 IH]; intros acc c; [reflexivity|].
  cbn [app CreateOrder.resolve_products]. unfold bind.
  destruct (CreateOrder.resolve_step B acc x c) as [[acc'|e] c1]; [|reflexivity].
  rewrite IH. reflexivity.
Qed.

Lemma resolve_step_found B st a acc product_id p t z :
  resolves B (products st) Product.id product_id p ->
  snd acc = Dec.DNum t ->
  Product.price p = Dec.DNum z ->
  CreateOrder.resolve_step B acc product_id (mkConnection st a false)
  = (Return (append (fst acc) p, Dec.DNum (Dec.context_round (t + z))),
     mkConnection st a false).
Proof.
  intros H Ht Hz. unfold CreateOrder.resolve_step, try_except, bind.
  rewrite (get_resolves B MProduct products Product.id _ p st H a).
  rewrite Ht, Hz. reflexivity.
Qed.

Lemma resolve_step_missing B st a acc product_id :
  missing B (products st) Product.id product_id ->
  CreateOrder.resolve_step B acc product_id (mkConnection st a false)
  = (Raise (ValidationError
              ("Product with ID " ++ CreateOrder.format_id product_id
               ++ " does not exist")),
     mkConnection st a false).
Proof.
  intros H. unfold CreateOrder.resolve_step, try_except, bind.
  rewrite (get_missing B MProduct products Product.id _ st H a). reflexivity.
Qed.

(** The product loop over ids that all resolve. *)
Lemma resolve_products_found B st a product_ids :
  forall ps zs acc t,
    Forall2 (resolves B (products st) Product.id) product_ids ps ->
    map Product.price ps = map Dec.DNum zs ->
    snd acc = Dec.DNum t ->
    CreateOrder.resolve_products B product_ids acc (mkConnection st a false)
    = (Return ((fst acc ++ ps)%list, Dec.DNum (running_total t zs)),
       mkConnection st a false).
Proof.
  induction product_ids as [|x rest IH]; intros ps zs acc t HF Hz Ht.
  - inversion HF; subst. destruct zs; [|discriminate]. cbn.
    rewrite app_nil_r. unfold ret. destruct acc as [l d]. cbn in *. now subst.
  - inversion HF as [|? p ? ps' Hx Hrest]; subst.
    destruct zs as [|z zs']; [discriminate|]. cbn in Hz. injection Hz as Hz Hzs.
    cbn [CreateOrder.resolve_products]. unfold bind.
    rewrite (resolve_step_found B st a acc x p t z Hx Ht Hz).
    rewrite (IH ps' zs' (append (fst acc) p, Dec.DNum (Dec.context_round (t + z)))
               (Dec.context_round (t + z)) Hrest Hzs eq_refl).
    cbn [fst snd running_total fold_left]. unfold append.
    now rewrite <- app_assoc.
Qed.

Lemma resolves_in {R : Type} B (table : list R) pk value r :
  resolves B table pk value r -> In r table.
Proof.
  intros [s [k [_ [_ H]]]]. now apply find_some in H.
Qed.

Lemma resolved_amounts B st product_ids ps :
  finite_prices st ->
  Forall2 (resolves B (products st) Product.id) product_ids ps ->
  exists zs, map Product.price ps = map Dec.DNum zs.
Proof.
  intros Hfin HF. induction HF as [|x p xs ps' Hx _ IH].
  - now exists [].
  - destruct IH as [zs Hzs].
    apply resolves_in in Hx.
    unfold finite_prices in Hfin. rewrite Forall_forall in Hfin.
    destruct (Hfin p Hx) as [z Hz].
    exists (z :: zs). cbn. now rewrite Hz, Hzs.
Qed.

Lemma resolve_products_return_found B st a product_ids :
  forall acc acc' c',
    CreateOrder.resolve_products B product_ids acc (mkConnection st a false)
    = (Return acc', c') ->
    forall product_id, In product_id product_ids ->
                       ~ missing B (products st) Product.id product_id.
Proof.
  induction product_ids as [|x rest IH]; intros acc acc' c' H y Hin Hmiss;
    [contradiction|].
  cbn [CreateOrder.resolve_products] in H.
  apply bind_return in H. destruct H as [acc1 [c1 [H1 H2]]].
  pose proof (resolve_step_connection B acc x (mkConnection st a false)) as F.
  rewrite H1 in F. cbn in F. subst c1.
  destruct Hin as [<-|Hin].
  - rewrite (resolve_step_missing B st a acc x Hmiss) in H1. discriminate.
  - exact (IH _ _ _ H2 y Hin Hmiss).
Qed.

Lemma attempt_missing_customer B st input :
  missing B (customers st) Customer.id (Some (OrderInput.customer_id input)) ->
  CreateOrder.attempt B input (idle st)
  = (Raise (ValidationError "Customer does not exist"), idle st).
Proof.
  intros H. unfold CreateOrder.attempt, bind, CreateOrder.find_customer, try_except, idle.
  rewrite (get_missing B MCustomer customers Customer.id _ st H false). reflexivity.
Qed.

Lemma find_customer_found B st id cu :
  resolves B (customers st) Customer.id (Some id) cu ->
  CreateOrder.find_customer B id (idle st) = (Return cu, idle st).
Proof.
  intros H. unfold CreateOrder.find_customer, try_except, idle.
  now rewrite (get_resolves B MCustomer customers Customer.id _ cu st H false).
Qed.

Lemma attempt_missing_product B st input cu pre ps product_id post :
  resolves B (customers st) Customer.id (Some (OrderInput.customer_id input)) cu ->
  OrderInput.product_ids input = (pre ++ product_id :: post)%list ->
  Forall2 (resolves B (products st) Product.id) pre ps ->
  finite_prices st ->
  missing B (products st) Product.id product_id ->
  CreateOrder.attempt B input (idle st)
  = (Raise (ValidationError
              ("Product with ID " ++ CreateOrder.format_id product_id
               ++ " does not exist")),
     idle st).
Proof.
  intros Hcu Hids Hpre Hfin Hmiss.
  destruct (resolved_amounts B st pre ps Hfin Hpre) as [zs Hzs].
  unfold CreateOrder.attempt. unfold bind at 1.
  rewrite (find_customer_found B st _ cu Hcu).
  unfold bind at 1. rewrite Hids, resolve_products_app. unfold bind at 1.
  unfold idle.
  rewrite (resolve_products_found B st false pre ps zs ([], Dec.DNum 0) 0 Hpre Hzs eq_refl).
  cbn [CreateOrder.resolve_products]. unfold bind at 1.
  rewrite (resolve_step_missing B st false _ product_id Hmiss). reflexivity.
Qed.

(** C2, as the code has it: createOrder always answers with an envelope,
    and it fails exactly when an exception is raised inside the outer try.
    A failed call has order=null, a message and success=false, and leaves
    the store as it was: no Order and no OrderItem row is persisted.  The
    customer is checked first: when it is missing the message is the text
    of the validation error, ['Customer does not exist'], whatever the
    product ids are.  Any missing product id makes the call fail, and when
    the customer and the ids before the first missing one resolve (stored
    prices being numbers), the message is the text of the validation error
    that names that id. *)
Theorem create_order_failure_envelope (B : Backend) (st : Store)
    (input : OrderInput.t) :
  exists r st',
    CreateOrder.mutate B st input = (Return r, st') /\
    (CreateOrder.success r = false <->
     exists e c', CreateOrder.attempt B input (idle st) = (Raise e, c')) /\
    (CreateOrder.success r = false ->
     CreateOrder.order r = None /\ CreateOrder.message r <> None /\ st' = st) /\
    (missing B (customers st) Customer.id (Some (OrderInput.customer_id input)) ->
     CreateOrder.success r = false /\
     CreateOrder.message r = Some "['Customer does not exist']") /\
    (forall product_id,
        In product_id (OrderInput.product_ids input) ->
        missing B (products st) Product.id product_id ->
        CreateOrder.success r = false) /\
    (forall cu pre ps product_id post,
        resolves B (customers st) Customer.id (Some (OrderInput.customer_id input)) cu ->
        OrderInput.product_ids input = (pre ++ product_id :: post)%list ->
        Forall2 (resolves B (products st) Product.id) pre ps ->
        finite_prices st ->
        missing B (products st) Product.id product_id ->
        CreateOrder.message r
        = Some (str (ValidationError
                       ("Product with ID " ++ CreateOrder.format_id product_id
                        ++ " does not exist")))).
Proof.
  rewrite create_order_cases.
  destruct (CreateOrder.attempt B input (idle st)) as [[r|e] c'] eqn:E.
  - destruct (attempt_return _ _ _ _ _ E) as [o ->].
    eexists _, _. split; [reflexivity|]. cbn [CreateOrder.success].
    split; [|split; [|split; [|split]]].
    + split; [discriminate | intros [e [c'' H]]; discriminate H].
    + discriminate.
    + intros H. rewrite (attempt_missing_customer B st input H) in E. discriminate E.
    + intros y Hin Hmiss. exfalso.
      unfold CreateOrder.attempt in E.
      apply bind_return in E. destruct E as [cu [c1 [E1 E]]].
      pose proof (find_customer_connection B (OrderInput.customer_id input) (idle st)) as F.
      rewrite E1 in F. cbn in F. subst c1.
      apply bind_return in E. destruct E as [acc [c2 [E2 _]]].
      exact (resolve_products_return_found B st false _ _ _ _ E2 y Hin Hmiss).
    + intros cu pre ps y post Hcu Hids Hpre Hfin Hmiss.
      rewrite (attempt_missing_product B st input cu pre ps y post
                 Hcu Hids Hpre Hfin Hmiss) in E.
      discriminate E.
  - eexists _, _. split; [reflexivity|]. cbn [CreateOrder.success CreateOrder.order
                                               CreateOrder.message].
    split; [|split; [|split; [|split]]].
    + split; [intros _; now exists e, c' | reflexivity].
    + intros _. split; [reflexivity|]. split; [discriminate|].
      exact (attempt_raise_unchanged _ _ _ _ _ E).
    + intros H. rewrite (attempt_missing_customer B st input H) in E.
      injection E as <- _. split; reflexivity.
    + reflexivity.
    + intros cu pre ps y post Hcu Hids Hpre Hfin Hmiss.
      rewrite (attempt_missing_product B st input cu pre ps y post
                 Hcu Hids Hpre Hfin Hmiss) in E.
      injection E as <- _. reflexivity.
Qed.

(** An order for a customer that the seeded store does not have. *)
Lemma create_order_failure_envelope_witness :
  exists r st',
    CreateOrder.mutate SpecModels.backend SpecModels.seeded
      (OrderInput.make "9" [Some "1"; Some "2"]) = (Return r, st') /\
    CreateOrder.success r = false /\
    CreateOrder.order r = None /\
    CreateOrder.message r = Some "['Customer does not exist']" /\
    st' = SpecModels.seeded.
Proof.
  destruct (create_order_failure_envelope SpecModels.backend SpecModels.seeded
              (OrderInput.make "9" [Some "1"; Some "2"]))
    as [r [st' [E [_ [H1 [H2 _]]]]]].
  exists r, st'. split; [exact E|].
  destruct H2 as [H3 H4].
  - right. exists "9", 9. repeat split.
  - destruct (H1 H3) as [H5 [_ H6]]. auto.
Defined.

(** C2, as stated, fails on the text of the message: for a customer that
    is missing the envelope carries the text of the validation error, the
    list form ['Customer does not exist'], not the bare sentence. *)
Lemma create_order_missing_customer_message :
  let input := OrderInput.make "9" [Some "1"; Some "2"] in
  missing SpecModels.backend (customers SpecModels.seeded) Customer.id
    (Some (OrderInput.customer_id input)) /\
  exists r,
    CreateOrder.mutate SpecModels.backend SpecModels.seeded input
    = (Return r, SpecModels.seeded) /\
    CreateOrder.success r = false /\
    CreateOrder.message r = Some "['Customer does not exist']" /\
    CreateOrder.message r <> Some "Customer does not exist".
Proof.
  cbv zeta. split.
  - right. exists "9", 9. repeat split.
  - eexists. split; [vm_compute; reflexivity|]. cbn.
    split; [reflexivity|]. split; [reflexivity|]. discriminate.
Qed.

(** A write that the database refuses in the middle of the atomic block
    undoes the order row and the items written before it. *)
Lemma create_order_rollback_example :
  let st := mkStore (customers SpecModels.seeded) (products SpecModels.seeded) [] [] in
  CreateOrder.mutate (SpecModels.refusing_items_of 3) st
    (OrderInput.make "1" [Some "2"; Some "3"])
  = (Return (CreateOrder.make None
               (Some "Error creating order: database is locked") false), st).
Proof. reflexivity. Qed.

(** *** Totals within the context precision *)

Lemma context_round_exact z :
  Z.abs z < Dec.prec_bound -> Dec.context_round z = z.
Proof.
  intros H. unfold Dec.context_round.
  assert (Hk : Dec.excess_digits (Z.to_nat (Z.log2 (Z.abs z))) 0 (Z.abs z) = 0).
  { destruct (Z.to_nat (Z.log2 (Z.abs z))) as [|f]; [reflexivity|].
    cbn [Dec.excess_digits].
    destruct (Z.abs z <? Dec.prec_bound) eqn:E; [reflexivity|].
    apply Z.ltb_ge in E. lia. }
  rewrite Hk. unfold Dec.round_half_even.
  change (10 ^ 0) with 1. rewrite Z.div_1_r, Z.mod_1_r.
  change (2 * 0 >? 1) with false. change (2 * 0 =? 1) with false.
  cbn [orb andb]. lia.
Qed.

Lemma Zsum_abs_nonneg zs : 0 <= Zsum_abs zs.
Proof.
  induction zs as [|y ys IH]; unfold Zsum_abs in *; cbn [fold_right]; lia.
Qed.

Lemma running_total_exact zs :
  forall t, Z.abs t + Zsum_abs zs < Dec.prec_bound -> running_total t zs = t + Zsum zs.
Proof.
  induction zs as [|z zs IH]; intros t H.
  - unfold running_total, Zsum. cbn [fold_left fold_right]. lia.
  - pose proof (Zsum_abs_nonneg zs) as Hz.
    unfold running_total, Zsum, Zsum_abs in *. cbn [fold_left fold_right] in *.
    rewrite context_round_exact by lia.
    rewrite IH by lia. lia.
Qed.

(** *** The writes of the atomic block *)

Lemma insert_accepted B r put st a :
  write_fault B st r = None ->
  insert B r put (mkConnection st a false) = (Return tt, mkConnection (put st) a false).
Proof.
  intros H. unfold insert. cbn. now rewrite H.
Qed.

Lemma create_items_accepted B order ps :
  accepts_writes B ->
  forall st1,
  exists items,
    CreateOrder.create_items B order ps (mkConnection st1 true false)
    = (Return tt,
       mkConnection (mkStore (customers st1) (products st1) (orders st1)
                       (order_items st1 ++ items)) true false) /\
    map item_fields items = map (item_for order) ps.
Proof.
  intros Hw. induction ps as [|p rest IH]; intros st1.
  - exists []. cbn. rewrite app_nil_r. destruct st1; split; reflexivity.
  - cbn [CreateOrder.create_items]. unfold bind at 1.
    unfold Orm.create_order_item. unfold bind at 1.
    cbn [tables]. rewrite insert_accepted by apply Hw.
    unfold ret at 1.
    match goal with |- context [Orm.add_order_item ?row st1] =>
      destruct (IH (Orm.add_order_item row st1)) as [items [E M]];
      exists (row :: items) end.
    rewrite E. cbn. unfold append. rewrite <- app_assoc. cbn.
    split; [reflexivity|]. now rewrite M.
Qed.

Lemma place_order_accepted B st cu acc :
  accepts_writes B ->
  exists o items,
    CreateOrder.place_order B cu acc (idle st)
    = (Return o,
       idle (mkStore (customers st) (products st) (orders st ++ [o])
               (order_items st ++ items))) /\
    Order.customer o = Customer.id cu /\
    Order.total_amount o = snd acc /\
    map item_fields items = map (item_for o) (fst acc).
Proof.
  intros Hw. unfold CreateOrder.place_order, atomic, idle. cbn [tables needs_rollback in_atomic_block].
  unfold bind at 1. unfold Orm.save_order. unfold bind at 1.
  cbn [tables]. rewrite insert_accepted by apply Hw. unfold ret at 1.
  match goal with |- context [Orm.add_order ?row st] =>
    destruct (create_items_accepted B row (fst acc) Hw (Orm.add_order row st))
      as [items [E M]];
    exists row, items end.
  unfold bind. rewrite E. cbn. split; [reflexivity|]. auto.
Qed.

(** C1: when the customer id and every product id resolve, for a list of
    ids that is not empty, stored prices that are numbers whose total stays
    within the precision of the decimal context, and a database that
    accepts the writes, createOrder succeeds; the order's total_amount is
    the sum of the prices of the resolved products, and exactly one
    OrderItem row per resolved product is added, in order, each for the new
    order with quantity 1 and the product's price as unit_price. *)
Theorem create_order_total_and_items (B : Backend) (st : Store)
    (input : OrderInput.t) (cu : Customer.t) (ps : list Product.t) (zs : list Z) :
  accepts_writes B ->
  resolves B (customers st) Customer.id (Some (OrderInput.customer_id input)) cu ->
  Forall2 (resolves B (products st) Product.id) (OrderInput.product_ids input) ps ->
  OrderInput.product_ids input <> [] ->
  map Product.price ps = map Dec.DNum zs ->
  Zsum_abs zs < Dec.prec_bound ->
  exists o items st',
    CreateOrder.mutate B st input
    = (Return (CreateOrder.make (Some o) (Some "Order created successfully") true), st') /\
    Order.total_amount o = Dec.DNum (Zsum zs) /\
    Order.customer o = Customer.id cu /\
    orders st' = (orders st ++ [o])%list /\
    order_items st' = (order_items st ++ items)%list /\
    map item_fields items = map (item_for o) ps /\
    List.length items = List.length (OrderInput.product_ids input) /\
    customers st' = customers st /\
    products st' = products st.
Proof.
  intros Hw Hcu Hps Hne Hzs Hbound.
  rewrite create_order_cases. unfold CreateOrder.attempt.
  unfold bind at 1. rewrite (find_customer_found B st _ cu Hcu).
  unfold bind at 1. unfold idle at 1.
  rewrite (resolve_products_found B st false _ ps zs ([], Dec.DNum 0) 0 Hps Hzs eq_refl).
  cbn [fst snd app].
  rewrite running_total_exact by (change (Z.abs 0) with 0; lia).
  change (0 + Zsum zs) with (Zsum zs).
  assert (Hps_ne : ps <> []).
  { intros ->. inversion Hps as [E|]. congruence. }
  destruct ps as [|p ps']; [congruence|].
  unfold bind at 1. unfold ret at 1. unfold bind at 1.
  destruct (place_order_accepted B st cu (p :: ps', Dec.DNum (Zsum zs)) Hw)
    as [o [items [E [Hc [Ht M]]]]].
  fold (idle st). rewrite E. unfold ret, idle. cbn [tables].
  exists o, items. eexists. split; [reflexivity|]. cbn.
  repeat split; auto.
  apply (f_equal (@List.length _)) in M. rewrite !length_map in M.
  rewrite M. symmetry. exact (Forall2_length Hps).
Qed.

(** Two products of the seeded store, 29.99 and 79.99, for its first
    customer. *)
Lemma create_order_total_and_items_witness :
  exists o items st',
    CreateOrder.mutate SpecModels.backend SpecModels.seeded
      (OrderInput.make "1" [Some "2"; Some "3"])
    = (Return (CreateOrder.make (Some o) (Some "Order created successfully") true), st') /\
    Order.total_amount o = Dec.DNum (Zsum [2999; 7999]) /\
    Order.customer o = Some 1 /\
    orders st' = (orders SpecModels.seeded ++ [o])%list /\
    order_items st' = (order_items SpecModels.seeded ++ items)%list /\
    map item_fields items
    = map (item_for o)
        [ Product.make (Some 2) "Mouse" (Dec.DNum 2999) 50;
          Product.make (Some 3) "Keyboard" (Dec.DNum 7999) 25 ] /\
    List.length items = 2%nat /\
    customers st' = customers SpecModels.seeded /\
    products st' = products SpecModels.seeded.
Proof.
  apply (create_order_total_and_items SpecModels.backend SpecModels.seeded
           (OrderInput.make "1" [Some "2"; Some "3"])
           (Customer.make (Some 1) "Alice Johnson" "alice@example.com"
              (Some "+1234567890"))).
  - intros st r. reflexivity.
  - exists "1", 1. repeat split.
  - constructor; [exists "2", 2; repeat split|].
    constructor; [exists "3", 3; repeat split|]. constructor.
  - discriminate.
  - reflexivity.
  - vm_compute. reflexivity.
Defined.

(** ** Bulk customer creation *)

Lemma validate_phone_outcome phone :
  CreateCustomer.validate_phone phone = Return true \/
  CreateCustomer.validate_phone phone
  = Raise (ValidationError CreateCustomer.invalid_phone).
Proof.
  unfold CreateCustomer.validate_phone. destruct phone as [p|]; [|now left].
  destruct (PyStr.truthy p); [|now left].
  destruct (Re.re_match _ _); cbn; [now left | now right].
Qed.

(** One turn of the bulk loop on an entry that is not null, branch by
    branch. *)
Lemma step_cases (B : Backend) (acc : BulkCreateCustomers.lists)
    (i : CustomerInput.t) (c : Connection) :
  BulkCreateCustomers.step B acc (Some i) c =
  if needs_rollback c then
    (Return (fst acc,
             append (snd acc)
               ("Error creating customer " ++ CustomerInput.email i ++ ": "
                ++ broken_transaction_text)), c)
  else if existsb (fun d => String.eqb (Customer.email d) (CustomerInput.email i))
            (customers (tables c)) then
    (Return (fst acc,
             append (snd acc) ("Email " ++ CustomerInput.email i ++ " already exists")), c)
  else
    match CreateCustomer.validate_phone (CustomerInput.phone i) with
    | Raise e =>
        (Return (fst acc,
                 append (snd acc)
                   ("Validation error for " ++ CustomerInput.email i ++ ": "
                    ++ "['Invalid phone number format. Use +1234567890 or 123-456-7890']")),
         c)
    | Return _ =>
        match customer_full_clean B (tables c) (instance_of i) with
        | Some t =>
            (Return (fst acc,
                     append (snd acc)
                       ("Validation error for " ++ CustomerInput.email i ++ ": " ++ t)), c)
        | None =>
            match write_fault B (tables c) (RCustomer (customer_row (tables c) i)) with
            | Some t =>
                (Return (fst acc,
                         append (snd acc)
                           ("Error creating customer " ++ CustomerInput.email i ++ ": " ++ t)),
                 mkConnection (tables c) (in_atomic_block c) (in_atomic_block c))
            | None =>
                (Return (append (fst acc) (customer_row (tables c) i), snd acc),
                 mkConnection (Orm.add_customer (customer_row (tables c) i) (tables c))
                   (in_atomic_block c) false)
            end
        end
    end.
Proof.
  unfold BulkCreateCustomers.step, try_except, bind, BulkCreateCustomers.email_of,
    BulkCreateCustomers.phone_of, BulkCreateCustomers.name_of, ret, lift,
    Orm.email_exists, Orm.customer_full_clean, Orm.save_customer, insert, bind,
    execute, ret, raise, instance_of, customer_row.
  destruct (needs_rollback c) eqn:Hn; [reflexivity|].
  destruct (existsb _ _); [reflexivity|].
  destruct (validate_phone_outcome (CustomerInput.phone i)) as [-> | ->];
    [|reflexivity].
  rewrite Hn.
  destruct (customer_full_clean B (tables c) _) as [t|]; [reflexivity|].
  rewrite Hn.
  destruct (write_fault B (tables c) _) as [t|]; reflexivity.
Qed.

(** Every turn ends normally and appends to exactly one of the two lists. *)
Lemma step_outcome B acc i c :
  exists o c',
    BulkCreateCustomers.step B acc (Some i) c
    = (Return (match o with
               | inl cu => (append (fst acc) cu, snd acc)
               | inr e => (fst acc, append (snd acc) e)
               end), c') /\
    outcome_of i o.
Proof.
  rewrite step_cases.
  destruct (needs_rollback c).
  { eexists (inr _), _. split; [reflexivity|]. right. right. eexists. reflexivity. }
  destruct (existsb _ _).
  { eexists (inr _), _. split; [reflexivity|]. left. reflexivity. }
  destruct (CreateCustomer.validate_phone _).
  - destruct (customer_full_clean B _ _) as [t|].
    { eexists (inr _), _. split; [reflexivity|]. right. left. eexists. reflexivity. }
    destruct (write_fault B _ _) as [t|].
    { eexists (inr _), _. split; [reflexivity|]. right. right. eexists. reflexivity. }
    eexists (inl _), _. split; [reflexivity|].
    unfold outcome_of, created_from, customer_row. cbn. repeat split. discriminate.
  - eexists (inr _), _. split; [reflexivity|]. right. left. eexists. reflexivity.
Qed.

Lemma loop_outcomes B rows :
  forall acc c,
  exists outcomes c',
    BulkCreateCustomers.loop B (map Some rows) acc c
    = (Return ((fst acc ++ lefts outcomes)%list, (snd acc ++ rights outcomes)%list), c') /\
    Forall2 outcome_of rows outcomes.
Proof.
  induction rows as [|i rest IH]; intros acc c.
  - exists [], c. cbn. rewrite !app_nil_r. destruct acc; split; [reflexivity | constructor].
  - cbn [map BulkCreateCustomers.loop]. unfold bind.
    destruct (step_outcome B acc i c) as [o [c1 [E Ho]]]. rewrite E.
    match goal with |- context [BulkCreateCustomers.loop B _ ?acc1 c1] =>
      destruct (IH acc1 c1) as [os [c2 [E2 F]]] end.
    exists (o :: os), c2. rewrite E2. split; [|now constructor].
    destruct o as [cu|e]; cbn; unfold append; now rewrite <- app_assoc.
Qed.

(** bulkCreateCustomers on entries that are not null, in terms of its
    loop. *)
Lemma bulk_cases B st rows :
  exists acc c',
    BulkCreateCustomers.loop B (map Some rows) ([], []) (mkConnection st true false)
    = (Return acc, c') /\
    BulkCreateCustomers.mutate B st (map Some rows)
    = (Return (BulkCreateCustomers.make (fst acc) (snd acc)
                 (0 <? Z.of_nat (List.length (fst acc)))),
       if needs_rollback c' then st else tables c').
Proof.
  destruct (loop_outcomes B rows ([], []) (mkConnection st true false))
    as [os [c' [E _]]].
  eexists _, c'. split; [exact E|].
  unfold BulkCreateCustomers.mutate, run, BulkCreateCustomers.body, bind, atomic, idle.
  cbn [tables needs_rollback in_atomic_block]. rewrite E.
  destruct (needs_rollback c'); reflexivity.
Qed.

(** C10: for every bulkCreateCustomers call (entries not null), each entry
    contributes one returned customer or one error string, so the two
    lists together are as long as the input. *)
Theorem bulk_one_outcome_per_entry (B : Backend) (st : Store)
    (rows : list CustomerInput.t) :
  exists r st',
    BulkCreateCustomers.mutate B st (map Some rows) = (Return r, st') /\
    (List.length (BulkCreateCustomers.customers r)
     + List.length (BulkCreateCustomers.errors r) = List.length rows)%nat.
Proof.
  destruct (bulk_cases B st rows) as [acc [c' [E ->]]].
  eexists _, _. split; [reflexivity|]. cbn.
  destruct (loop_outcomes B rows ([], []) (mkConnection st true false))
    as [os [c2 [E2 F]]].
  rewrite E in E2. injection E2 as -> _. cbn.
  rewrite (Forall2_length F). clear.
  induction os as [|[cu|e] os IH]; cbn; [reflexivity | lia | lia].
Qed.

Lemma loop_app B l1 l2 :
  forall acc c,
    BulkCreateCustomers.loop B (l1 ++ l2) acc c =
    bind (BulkCreateCustomers.loop B l1 acc)
         (fun acc' => BulkCreateCustomers.loop B l2 acc') c.
Proof.
  induction l1 as [|x l1 IH]; intros acc c; [reflexivity|].
  cbn [app BulkCreateCustomers.loop]. unfold bind.
  destruct (BulkCreateCustomers.step B acc x c) as [[acc'|e] c1]; [|reflexivity].
  rewrite IH. reflexivity.
Qed.





(** An entry is refused for its email, for its phone or by the model
    validation, or it is valid: no entry is left out. *)
Lemma entry_cases B st i :
  email_taken st (CustomerInput.email i) \/
  (~ email_taken st (CustomerInput.email i) /\
   CreateCustomer.validate_phone (CustomerInput.phone i) <> Return true) \/
  (exists t, ~ email_taken st (CustomerInput.email i) /\
             CreateCustomer.validate_phone (CustomerInput.phone i) = Return true /\
             customer_full_clean B st (instance_of i) = Some t) \/
  valid_entry B st i.
Proof.
  destruct (existsb (fun c => String.eqb (Customer.email c) (CustomerInput.email i))
              (customers st)) eqn:Hex.
  - left. apply existsb_exists in Hex. destruct Hex as [c [Hin He]].
    exists c. split; [exact Hin|]. now apply String.eqb_eq.
  - assert (Hf : ~ email_taken st (CustomerInput.email i)).
    { intros Ht. rewrite (email_exists_true _ _ Ht) in Hex. discriminate. }
    right.
    destruct (validate_phone_outcome (CustomerInput.phone i)) as [Hv|Hv].
    + right. destruct (customer_full_clean B st (instance_of i)) as [t|] eqn:Hc.
      * left. exists t. auto.
      * right. repeat split; assumption.
    + left. split; [exact Hf|]. rewrite Hv. discriminate.
Qed.






(** The case of the spec: three entries, the second a duplicate. *)
Lemma bulk_second_entry_duplicate :
  BulkCreateCustomers.mutate SpecModels.backend empty_store
    [ Some (CustomerInput.make "Dan" "dan@example.com" None);
      Some (CustomerInput.make "Dan" "dan@example.com" (Some "123-456-7890"));
      Some (CustomerInput.make "Fay" "fay@example.com" None) ]
  = (Return (BulkCreateCustomers.make
               [ Customer.make (Some 1) "Dan" "dan@example.com" None;
                 Customer.make (Some 2) "Fay" "fay@example.com" None ]
               [ "Email dan@example.com already exists" ]
               true),
     mkStore [ Customer.make (Some 1) "Dan" "dan@example.com" None;
               Customer.make (Some 2) "Fay" "fay@example.com" None ] [] [] []).
Proof. reflexivity. Qed.

(** A write that the database refuses marks the block for rollback: the
    later entries fail on the broken transaction, and nothing of the batch
    is persisted although the customers saved before are returned. *)
Lemma bulk_refused_write_rolls_back :
  BulkCreateCustomers.mutate (SpecModels.refusing_customer "Eve") empty_store
    [ Some (CustomerInput.make "Dan" "dan@example.com" None);
      Some (CustomerInput.make "Eve" "eve@example.com" None);
      Some (CustomerInput.make "Fay" "fay@example.com" None) ]
  = (Return (BulkCreateCustomers.make
               [ Customer.make (Some 1) "Dan" "dan@example.com" None ]
               [ "Error creating customer eve@example.com: database is locked";
                 "Error creating customer fay@example.com: "
                 ++ broken_transaction_text ]
               true),
     empty_store).
Proof. reflexivity. Qed.

(** A null entry, which the list type of [inputs] admits: the handler
    reads the entry's email again, so the exception leaves the loop, the
    block is rolled back and the mutation raises. *)
Lemma bulk_null_entry_raises (B : Backend) (st : Store)
    (inputs : list (option CustomerInput.t)) :
  BulkCreateCustomers.mutate B st (None :: inputs)
  = (Raise (AttributeError none_attribute_text), st).
Proof. reflexivity. Qed.

(** ** Concrete runs *)

(** [re.match] of the phone pattern on sample subjects; a newline that
    ends the subject is accepted by [$]. *)
Example phone_pattern_samples :
  map (Re.re_match Re.phone_pattern)
    [ "+1234567890"; "123-456-7890"; "123-45-6789"; "+44555123456"; "1234567890";
      "+1 234 567 8901"; "+1-234-567-8901"; "123 456-7890";
      "123-456-7890" ++ String PyStr.newline EmptyString;
      "123-456-7890" ++ String PyStr.newline (String PyStr.newline EmptyString) ]
  = [ false; true; false; true; true; true; true; true; true; false ].
Proof. reflexivity. Qed.

Example repr_samples :
  PyStr.repr_list1 "Customer does not exist" = "['Customer does not exist']" /\
  PyStr.repr "it's" = String PyStr.dquote ("it's" ++ String PyStr.dquote EmptyString) /\
  PyStr.repr (String (ascii_of_N 233) (String (ascii_of_N 160) (String PyStr.newline EmptyString)))
  = String PyStr.squote
      (String (ascii_of_N 233)
         (String PyStr.backslash
            ("xa0" ++ String PyStr.backslash ("n" ++ String PyStr.squote EmptyString)))).
Proof. repeat split. Qed.

(** Sums beyond 28 significant digits are rounded half to even. *)
Example context_round_samples :
  map Dec.context_round
    [ 12345; 10 ^ 28 + 5; 10 ^ 29 + 150; 10 ^ 29 + 50; - (10 ^ 29 + 16); 10 ^ 29 + 251 ]
  = [ 12345; 10 ^ 28; 10 ^ 29 + 200; 10 ^ 29; - 10 ^ 29; 10 ^ 29 + 300 ].
Proof. vm_compute. reflexivity. Qed.

(** The case of the spec: two products of 10.00 and 20.00 give an order of
    30.00 with two items of quantity 1 at the products' prices. *)
Example create_order_ten_and_twenty :
  let st := mkStore [ Customer.make (Some 1) "Alice Johnson" "alice@example.com" None ]
              [ Product.make (Some 1) "Pen" (Dec.DNum 1000) 3;
                Product.make (Some 2) "Ink" (Dec.DNum 2000) 3 ] [] [] in
  CreateOrder.mutate SpecModels.backend st (OrderInput.make "1" [Some "1"; Some "2"])
  = (Return (CreateOrder.make (Some (Order.make (Some 1) (Some 1) (Dec.DNum 3000)))
               (Some "Order created successfully") true),
     mkStore (customers st) (products st)
       [ Order.make (Some 1) (Some 1) (Dec.DNum 3000) ]
       [ OrderItem.make (Some 1) (Some 1) (Some 1) 1 (Dec.DNum 1000);
         OrderItem.make (Some 2) (Some 1) (Some 2) 1 (Dec.DNum 2000) ]).
Proof. reflexivity. Qed.

(** Prices 0 and -5 fail; 29.99 without a stock is stored with stock 0. *)
Example create_product_samples :
  fst (CreateProduct.mutate SpecModels.backend empty_store
         (ProductInput.make "Pen" (Dec.DNum 0) None))
  = Return (CreateProduct.make None (Some "['Price must be positive']") false) /\
  fst (CreateProduct.mutate SpecModels.backend empty_store
         (ProductInput.make "Pen" (Dec.DNum (-5)) (Some 2)))
  = Return (CreateProduct.make None (Some "['Price must be positive']") false) /\
  fst (CreateProduct.mutate SpecModels.backend empty_store
         (ProductInput.make "Pen" (Dec.DNum 2999) (Some (-1))))
  = Return (CreateProduct.make None (Some "['Stock cannot be negative']") false) /\
  CreateProduct.mutate SpecModels.backend empty_store
    (ProductInput.make "Pen" (Dec.DNum 2999) None)
  = (Return (CreateProduct.make (Some (Product.make (Some 1) "Pen" (Dec.DNum 2999) 0))
               (Some "Product created successfully") true),
     mkStore [] [ Product.make (Some 1) "Pen" (Dec.DNum 2999) 0 ] [] []).
Proof. repeat split. Qed.

(** ** Further properties of customer creation *)

Lemma NoDup_snoc {A : Type} (l : list A) (x : A) :
  NoDup l -> ~ In x l -> NoDup (l ++ [x]).
Proof.
  intros Hl Hx. induction l as [|y l IH]; cbn.
  - constructor; [intros []|constructor].
  - inversion Hl as [|? ? Hy Hl']; subst. constructor.
    + intros Hin. apply in_app_or in Hin. destruct Hin as [Hin|[->|[]]].
      * contradiction.
      * apply Hx. now left.
    + apply IH; [exact Hl'|]. intros Hin. apply Hx. now right.
Qed.

Lemma email_not_in st e :
  existsb (fun c => String.eqb (Customer.email c) e) (customers st) = false ->
  ~ In e (map Customer.email (customers st)).
Proof.
  intros H Hin. apply in_map_iff in Hin. destruct Hin as [c [He Hin]].
  assert (existsb (fun c => String.eqb (Customer.email c) e) (customers st) = true).
  { apply existsb_exists. exists c. split; [exact Hin|]. now apply String.eqb_eq. }
  congruence.
Qed.

(** A branch that ends in a failure envelope with the store untouched. *)
Ltac failed_envelope :=
  eexists _, _; split; [reflexivity|]; cbn;
  split; [split; [discriminate | congruence]|];
  split; [reflexivity | discriminate].

(** createCustomer always answers with an envelope.  It reports success
    exactly when it returns a customer; a failed call leaves the store as it
    was; a successful call has checked that the email was not taken and that
    the phone passes validate_phone, and adds exactly the returned customer,
    with the fields of the input, at the end of the customers. *)
Theorem create_customer_envelope (B : Backend) (st : Store) (input : CustomerInput.t) :
  exists r st',
    CreateCustomer.mutate B st input = (Return r, st') /\
    (CreateCustomer.success r = true <-> CreateCustomer.customer r <> None) /\
    (CreateCustomer.success r = false -> st' = st) /\
    (CreateCustomer.success r = true ->
     ~ email_taken st (CustomerInput.email input) /\
     CreateCustomer.validate_phone (CustomerInput.phone input) = Return true /\
     CreateCustomer.customer r = Some (customer_row st input) /\
     created_from input (customer_row st input) /\
     st' = with_customers st [customer_row st input]).
Proof.
  rewrite create_customer_cases.
  destruct (existsb _ _) eqn:Hex; [failed_envelope|].
  destruct (validate_phone_outcome (CustomerInput.phone input)) as [Hv|Hv]; rewrite Hv;
    [|failed_envelope].
  destruct (customer_full_clean B st _); [failed_envelope|].
  destruct (write_fault B st _); [failed_envelope|].
  eexists _, _. split; [reflexivity|]. cbn.
  split; [split; [discriminate | reflexivity]|]. split; [discriminate|].
  intros _. split.
  - intros H. apply email_exists_true in H. congruence.
  - repeat split. discriminate.
Qed.

(** createCustomer keeps the emails of the persisted customers distinct,
    whatever the model validation and the database answer. *)
Theorem create_customer_keeps_emails_unique (B : Backend) (st : Store)
    (input : CustomerInput.t) :
  unique_emails st ->
  unique_emails (snd (CreateCustomer.mutate B st input)).
Proof.
  intros Hu. rewrite create_customer_cases.
  destruct (existsb _ _) eqn:Hex; [exact Hu|].
  destruct (CreateCustomer.validate_phone _); [|exact Hu].
  destruct (customer_full_clean B st _); [exact Hu|].
  destruct (write_fault B st _); [exact Hu|].
  unfold unique_emails. cbn. unfold append. rewrite map_app. cbn.
  apply NoDup_snoc; [exact Hu|]. now apply email_not_in.
Qed.

(** A customer with a new email on the seeded store. *)
Lemma create_customer_keeps_emails_unique_witness :
  unique_emails
    (snd (CreateCustomer.mutate SpecModels.backend SpecModels.seeded
            (CustomerInput.make "Dan" "dan@example.com" None))).
Proof.
  apply create_customer_keeps_emails_unique.
  unfold unique_emails. cbn.
  repeat (constructor; [cbn; intuition discriminate|]). constructor.
Defined.

(** ** Further properties of bulk customer creation *)

(** The loop on any backend and from any state of the block: what it adds
    to the customers it returns, and where it leaves the connection. *)
Lemma loop_general B rows :
  forall acc st1 nr,
  exists new errs c',
    BulkCreateCustomers.loop B (map Some rows) acc (mkConnection st1 true nr)
    = (Return ((fst acc ++ new)%list, (snd acc ++ errs)%list), c') /\
    (needs_rollback c' = false -> tables c' = with_customers st1 new) /\
    (nr = true -> needs_rollback c' = true /\ new = []) /\
    NoDup (map Customer.email new) /\
    (forall e, In e (map Customer.email new) ->
               ~ In e (map Customer.email (customers st1))).
Proof.
  induction rows as [|i rest IH]; intros acc st1 nr.
  - exists [], [], (mkConnection st1 true nr). cbn. rewrite !app_nil_r.
    split; [destruct acc; reflexivity|]. split.
    { intros _. unfold with_customers. rewrite app_nil_r. now destruct st1. }
    split; [auto|]. split; [constructor | intros e []].
  - cbn [map BulkCreateCustomers.loop]. unfold bind. rewrite step_cases.
    cbn [needs_rollback tables in_atomic_block].
    assert (Herr : forall e nr',
      (nr = true -> nr' = true) ->
      exists new errs c',
        (let (o, c1) := (Return (fst acc, append (snd acc) e), mkConnection st1 true nr') in
         match o with
         | Return a => BulkCreateCustomers.loop B (map Some rest) a c1
         | Raise e0 => (Raise e0, c1)
         end)
        = (Return ((fst acc ++ new)%list, (snd acc ++ errs)%list), c') /\
        (needs_rollback c' = false -> tables c' = with_customers st1 new) /\
        (nr = true -> needs_rollback c' = true /\ new = []) /\
        NoDup (map Customer.email new) /\
        (forall e, In e (map Customer.email new) ->
                   ~ In e (map Customer.email (customers st1)))).
    { intros e nr' Hnr.
      destruct (IH (fst acc, append (snd acc) e) st1 nr')
        as [new [errs [c' [E [H1 [H2 [H3 H4]]]]]]].
      exists new, (e :: errs), c'. rewrite E. cbn [fst snd]. unfold append.
      rewrite <- app_assoc. split; [reflexivity|]. split; [exact H1|].
      split; [intros H; apply H2; auto | auto]. }
    destruct nr.
    { apply Herr. auto. }
    destruct (existsb _ _) eqn:Hex; [apply Herr; auto|].
    destruct (CreateCustomer.validate_phone _); [|apply Herr; auto].
    destruct (customer_full_clean B st1 _) as [t|]; [apply Herr; auto|].
    destruct (write_fault B st1 _) as [t|].
    { destruct (IH (fst acc,
                    append (snd acc)
                      ("Error creating customer " ++ CustomerInput.email i ++ ": " ++ t))
                  st1 true)
        as [new [errs [c' [E [H1 [H2 [H3 H4]]]]]]].
      exists new, (("Error creating customer " ++ CustomerInput.email i ++ ": " ++ t)
                     :: errs), c'.
      rewrite E. cbn [fst snd]. unfold append. rewrite <- app_assoc.
      split; [reflexivity|]. split; [exact H1|]. split; [discriminate | auto]. }
    match goal with |- context [Orm.add_customer ?row st1] =>
      destruct (IH (append (fst acc) row, snd acc) (Orm.add_customer row st1) false)
        as [new [errs [c' [E [H1 [H2 [H3 H4]]]]]]];
      exists (row :: new), errs, c' end.
    rewrite E. cbn [fst snd]. unfold append. rewrite <- app_assoc.
    split; [reflexivity|]. split.
    { intros Hn. rewrite (H1 Hn). unfold with_customers, Orm.add_customer, append.
      cbn. now rewrite <- app_assoc. }
    split; [discriminate|].
    assert (Hrow : ~ In (CustomerInput.email i) (map Customer.email (customers st1))).
    { now apply email_not_in. }
    split.
    + cbn. constructor; [|exact H3]. intros Hin. apply (H4 _ Hin).
      cbn. unfold append. rewrite map_app. apply in_or_app. right. now left.
    + intros e [<-|Hin]; [exact Hrow|]. intros Hst. apply (H4 _ Hin).
      cbn. unfold append. rewrite map_app. apply in_or_app. now left.
Qed.

(** bulkCreateCustomers against any backend. *)
Lemma bulk_general B st rows :
  exists (r : BulkCreateCustomers.t) st',
    BulkCreateCustomers.mutate B st (map Some rows) = (Return r, st') /\
    (st' = st \/ st' = with_customers st (BulkCreateCustomers.customers r)) /\
    NoDup (map Customer.email (BulkCreateCustomers.customers r)) /\
    (forall e, In e (map Customer.email (BulkCreateCustomers.customers r)) ->
               ~ In e (map Customer.email (customers st))).
Proof.
  destruct (bulk_cases B st rows) as [acc [c' [E ->]]].
  destruct (loop_general B rows ([], []) st false)
    as [new [errs [c2 [E2 [H1 [_ [H3 H4]]]]]]].
  rewrite E in E2. injection E2 as -> ->. cbn [fst snd app].
  eexists _, _. split; [reflexivity|]. cbn [BulkCreateCustomers.customers].
  split; [|split; assumption].
  destruct (needs_rollback c2) eqn:Hn; [now left | right; now apply H1].
Qed.


(** bulkCreateCustomers keeps the emails of the persisted customers
    distinct: the customers it returns have pairwise different emails, none
    of them an email that was already stored, also when two entries of one
    batch carry the same email. *)
Theorem bulk_keeps_emails_unique (B : Backend) (st : Store)
    (rows : list CustomerInput.t) :
  unique_emails st ->
  exists r st',
    BulkCreateCustomers.mutate B st (map Some rows) = (Return r, st') /\
    unique_emails st' /\
    NoDup (map Customer.email (BulkCreateCustomers.customers r)) /\
    (forall c, In c (BulkCreateCustomers.customers r) ->
               ~ email_taken st (Customer.email c)).
Proof.
  intros Hu. destruct (bulk_general B st rows) as [r [st' [E [H [H3 H4]]]]].
  exists r, st'. split; [exact E|]. split; [|split; [exact H3|]].
  - destruct H as [->| ->]; [exact Hu|].
    unfold unique_emails, with_customers. cbn [customers]. rewrite map_app.
    revert H3 H4. generalize (map Customer.email (BulkCreateCustomers.customers r)).
    unfold unique_emails in Hu. revert Hu.
    generalize (map Customer.email (customers st)). clear.
    intros l Hl l' Hl' Hd. induction l as [|x l IH]; [exact Hl'|].
    inversion Hl as [|? ? Hx Hl1]; subst. cbn. constructor.
    + intros Hin. apply in_app_or in Hin. destruct Hin as [Hin|Hin]; [contradiction|].
      apply (Hd x Hin). now left.
    + apply IH; [exact Hl1|]. intros e He Hin. apply (Hd e He). now right.
  - intros c Hc [d [Hd He]]. apply (H4 (Customer.email c)).
    + now apply in_map.
    + rewrite <- He. now apply in_map.
Qed.

(** Two entries with one new email on the seeded store. *)
Lemma bulk_keeps_emails_unique_witness :
  exists r st',
    BulkCreateCustomers.mutate SpecModels.backend SpecModels.seeded
      (map Some [ CustomerInput.make "Dan" "dan@example.com" None;
                  CustomerInput.make "Dan" "dan@example.com" None ])
    = (Return r, st') /\
    unique_emails st' /\
    NoDup (map Customer.email (BulkCreateCustomers.customers r)) /\
    (forall c, In c (BulkCreateCustomers.customers r) ->
               ~ email_taken SpecModels.seeded (Customer.email c)).
Proof.
  apply bulk_keeps_emails_unique.
  unfold unique_emails. cbn.
  repeat (constructor; [cbn; intuition discriminate|]). constructor.
Defined.

Lemma loop_one_by_one B rows :
  accepts_writes B ->
  forall acc st1,
  exists errs,
    BulkCreateCustomers.loop B (map Some rows) acc (mkConnection st1 true false)
    = (Return ((fst acc ++ fst (one_by_one B st1 rows))%list, (snd acc ++ errs)%list),
       mkConnection (snd (one_by_one B st1 rows)) true false).
Proof.
  intros Hw. induction rows as [|i rest IH]; intros acc st1.
  - exists []. cbn. rewrite !app_nil_r. now destruct acc.
  - cbn [map BulkCreateCustomers.loop one_by_one]. unfold bind.
    rewrite step_cases, create_customer_cases.
    cbn [needs_rollback tables in_atomic_block].
    assert (Herr : forall e m,
      exists errs,
        (let (o, c1) := (Return (fst acc, append (snd acc) e), mkConnection st1 true false) in
         match o with
         | Return a => BulkCreateCustomers.loop B (map Some rest) a c1
         | Raise e0 => (Raise e0, c1)
         end)
        = (Return
             ((fst acc ++
               fst (let (o, st2) := (Return (CreateCustomer.make None m false), st1) in
                    let (cs, st3) := one_by_one B st2 rest in
                    (match o with
                     | Return r =>
                         match CreateCustomer.customer r with
                         | Some c => c :: cs
                         | None => cs
                         end
                     | Raise _ => cs
                     end, st3)))%list,
              (snd acc ++ errs)%list),
           mkConnection
             (snd (let (o, st2) := (Return (CreateCustomer.make None m false), st1) in
                   let (cs, st3) := one_by_one B st2 rest in
                   (match o with
                    | Return r =>
                        match CreateCustomer.customer r with
                        | Some c => c :: cs
                        | None => cs
                        end
                    | Raise _ => cs
                    end, st3))) true false)).
    { intros e m. destruct (IH (fst acc, append (snd acc) e) st1) as [errs E].
      exists (e :: errs). rewrite E. cbn. destruct (one_by_one B st1 rest) as [cs st3].
      cbn. unfold append. now rewrite <- app_assoc. }
    destruct (existsb _ _); [apply Herr|].
    destruct (validate_phone_outcome (CustomerInput.phone i)) as [Hv|Hv]; rewrite Hv;
      [|apply Herr].
    destruct (customer_full_clean B st1 _) as [t|]; [apply Herr|].
    rewrite Hw.
    match goal with |- context [Orm.add_customer ?row st1] =>
      destruct (IH (append (fst acc) row, snd acc) (Orm.add_customer row st1))
        as [errs E] end.
    exists errs. rewrite E. cbn.
    destruct (one_by_one B _ rest) as [cs st3]. cbn. unfold append.
    now rewrite <- app_assoc.
Qed.

(** With a database that accepts the writes, one bulkCreateCustomers call
    creates the same customers and leaves the same store as createCustomer
    called on the entries one after the other. *)
Theorem bulk_is_one_by_one (B : Backend) (st : Store) (rows : list CustomerInput.t) :
  accepts_writes B ->
  exists r,
    BulkCreateCustomers.mutate B st (map Some rows)
    = (Return r, snd (one_by_one B st rows)) /\
    BulkCreateCustomers.customers r = fst (one_by_one B st rows).
Proof.
  intros Hw. destruct (loop_one_by_one B rows Hw ([], []) st) as [errs E].
  unfold BulkCreateCustomers.mutate, run, BulkCreateCustomers.body, bind, atomic, idle.
  cbn [tables needs_rollback in_atomic_block]. rewrite E. cbn.
  eexists. split; reflexivity.
Qed.

(** Three entries on the seeded store, the second with a taken email. *)
Lemma bulk_is_one_by_one_witness :
  let rows := [ CustomerInput.make "Dan" "dan@example.com" None;
                CustomerInput.make "Al" "alice@example.com" None;
                CustomerInput.make "Fay" "fay@example.com" (Some "12") ] in
  exists r,
    BulkCreateCustomers.mutate SpecModels.backend SpecModels.seeded (map Some rows)
    = (Return r, snd (one_by_one SpecModels.backend SpecModels.seeded rows)) /\
    BulkCreateCustomers.customers r
    = fst (one_by_one SpecModels.backend SpecModels.seeded rows).
Proof.
  apply bulk_is_one_by_one. intros s w. reflexivity.
Defined.

(** Without that, the two differ: a refused write undoes the whole batch,
    while the calls one after the other keep what they saved. *)
Lemma bulk_differs_on_refused_write :
  let rows := [ CustomerInput.make "Dan" "dan@example.com" None;
                CustomerInput.make "Eve" "eve@example.com" None ] in
  snd (BulkCreateCustomers.mutate (SpecModels.refusing_customer "Eve") empty_store
         (map Some rows)) = empty_store /\
  snd (one_by_one (SpecModels.refusing_customer "Eve") empty_store rows)
  = mkStore [ Customer.make (Some 1) "Dan" "dan@example.com" None ] [] [] [].
Proof. split; reflexivity. Qed.

(** ** Keys, lookups after a creation, and point queries that find a row *)

Lemma next_pk_fresh pks j :
  In (Some j) pks -> j < Orm.next_pk pks.
Proof.
  unfold Orm.next_pk. induction pks as [|pk pks IH]; intros Hin; [contradiction|].
  cbn [fold_right]. destruct Hin as [->|Hin].
  - lia.
  - specialize (IH Hin). destruct pk; lia.
Qed.

Lemma pk_is_true k pk : Orm.pk_is k pk = true <-> pk = Some k.
Proof.
  unfold Orm.pk_is. destruct pk as [j|]; split; intros H; try discriminate.
  - apply Z.eqb_eq in H. now subst.
  - injection H as ->. apply Z.eqb_refl.
Qed.

Lemma find_snoc {R : Type} (f : R -> bool) (l : list R) (x : R) :
  (forall r, In r l -> f r = false) -> f x = true -> find f (l ++ [x]) = Some x.
Proof.
  intros Hl Hx. induction l as [|y l IH]; cbn.
  - now rewrite Hx.
  - rewrite (Hl y (or_introl eq_refl)). apply IH. intros r Hr. apply Hl. now right.
Qed.

(** The row saved last is the one its key finds. *)
Lemma find_new_row {R : Type} (pk : R -> option Z) (table : list R) (row : R) :
  pk row = Some (Orm.next_pk (map pk table)) ->
  find (fun x => Orm.pk_is (Orm.next_pk (map pk table)) (pk x)) (append table row)
  = Some row.
Proof.
  intros Hrow. unfold append. apply find_snoc.
  - intros x Hin. destruct (Orm.pk_is _ (pk x)) eqn:E; [|reflexivity].
    apply pk_is_true in E.
    assert (Orm.next_pk (map pk table) < Orm.next_pk (map pk table)); [|lia].
    apply next_pk_fresh. rewrite <- E. now apply in_map.
  - now apply pk_is_true.
Qed.

Lemma get_return {R : Type} B m (table : Store -> list R) pk value st a r c' :
  Orm.get B m table pk value (mkConnection st a false) = (Return r, c') ->
  resolves B (table st) pk value r.
Proof.
  unfold Orm.get, bind, execute, raise, ret.
  destruct value as [s|]; [|cbn; discriminate].
  destruct (pk_to_python B s) as [t|k] eqn:Hk; [discriminate|]. cbn.
  destruct (find (fun x => Orm.pk_is k (pk x)) (table st)) as [x|] eqn:Hf;
    [|discriminate].
  intros H. injection H as <- _. now exists s, k.
Qed.

Lemma resolves_key {R : Type} B (table : list R) pk value r :
  resolves B table pk value r ->
  In r table /\ exists s k, value = Some s /\ pk_to_python B s = inr k /\ pk r = Some k.
Proof.
  intros [s [k [Hv [Hk Hf]]]]. apply find_some in Hf. destruct Hf as [Hin Hpk].
  split; [exact Hin|]. exists s, k. repeat split; auto. now apply pk_is_true.
Qed.

(** After a successful createCustomer, the customer query at any id that
    converts to the new customer's key returns exactly the customer that
    the mutation returned. *)
Theorem create_customer_then_lookup (B : Backend) (st st' : Store)
    (input : CustomerInput.t) (r : CreateCustomer.t) (c : Customer.t)
    (id : string) (k : Z) :
  CreateCustomer.mutate B st input = (Return r, st') ->
  CreateCustomer.customer r = Some c ->
  Customer.id c = Some k ->
  pk_to_python B id = inr k ->
  Query.resolve_customer B st' id = (Return c, st') /\
  Customer.name c = CustomerInput.name input /\
  Customer.email c = CustomerInput.email input /\
  Customer.phone c = CustomerInput.phone input.
Proof.
  rewrite create_customer_cases. intros H Hc Hid Hk.
  destruct (existsb _ _); [injection H as <- _; discriminate Hc|].
  destruct (CreateCustomer.validate_phone _); [|injection H as <- _; discriminate Hc].
  destruct (customer_full_clean B st _); [injection H as <- _; discriminate Hc|].
  destruct (write_fault B st _); [injection H as <- _; discriminate Hc|].
  injection H as <- <-. cbn in Hc. injection Hc as <-.
  cbn in Hid. injection Hid as <-.
  split; [|repeat split].
  unfold Query.resolve_customer, run, idle.
  rewrite (get_resolves B MCustomer customers Customer.id (Some id)
             (customer_row st input) _); [reflexivity|].
  exists id, (Orm.next_pk (map Customer.id (customers st))).
  split; [reflexivity|]. split; [exact Hk|].
  cbn [customers Orm.add_customer]. now apply find_new_row.
Qed.

(** A new customer of the seeded store, looked up by the key 4. *)
Lemma create_customer_then_lookup_witness :
  Query.resolve_customer SpecModels.backend
    (snd (CreateCustomer.mutate SpecModels.backend SpecModels.seeded
            (CustomerInput.make "Dan" "dan@example.com" None))) "4"
  = (Return (Customer.make (Some 4) "Dan" "dan@example.com" None),
     snd (CreateCustomer.mutate SpecModels.backend SpecModels.seeded
            (CustomerInput.make "Dan" "dan@example.com" None))).
Proof.
  apply (create_customer_then_lookup SpecModels.backend SpecModels.seeded _
           (CustomerInput.make "Dan" "dan@example.com" None)
           (CreateCustomer.make
              (Some (Customer.make (Some 4) "Dan" "dan@example.com" None))
              (Some "Customer created successfully") true)
           _ "4" 4); reflexivity.
Defined.

(** ** Further properties of product creation *)

(** createProduct never persists a product with a price that is not above
    zero or with a negative stock: if every persisted product is sellable,
    so is every persisted product after the call, whatever the model
    validation and the database answer. *)
Theorem create_product_keeps_products_sellable (B : Backend) (st : Store)
    (input : ProductInput.t) :
  Forall sellable (products st) ->
  Forall sellable (products (snd (CreateProduct.mutate B st input))).
Proof.
  intros H. rewrite create_product_cases.
  destruct (Dec.le_zero (ProductInput.price input)) as [[|]|] eqn:Hle; try exact H.
  destruct (stock_or_default input <? 0) eqn:Hs; [exact H|].
  destruct (product_full_clean B st _); [exact H|].
  destruct (write_fault B st _); [exact H|].
  cbn. unfold append. apply Forall_app. split; [exact H|].
  constructor; [|constructor]. split; [exact Hle|].
  apply Z.ltb_ge in Hs. exact Hs.
Qed.

(** A product on the seeded store. *)
Lemma create_product_keeps_products_sellable_witness :
  Forall sellable
    (products (snd (CreateProduct.mutate SpecModels.backend SpecModels.seeded
                      (ProductInput.make "Pen" (Dec.DNum 2999) None)))).
Proof.
  apply create_product_keeps_products_sellable.
  repeat (constructor; [split; [reflexivity | cbn; lia]|]). constructor.
Defined.

(** After a successful createProduct, the product query at any id that
    converts to the new product's key returns exactly the product that the
    mutation returned, with the name and price of the input and the stock of
    the input or 0. *)
Theorem create_product_then_lookup (B : Backend) (st st' : Store)
    (input : ProductInput.t) (r : CreateProduct.t) (p : Product.t)
    (id : string) (k : Z) :
  CreateProduct.mutate B st input = (Return r, st') ->
  CreateProduct.product r = Some p ->
  Product.id p = Some k ->
  pk_to_python B id = inr k ->
  Query.resolve_product B st' id = (Return p, st') /\
  Product.name p = ProductInput.name input /\
  Product.price p = ProductInput.price input /\
  Product.stock p = stock_or_default input.
Proof.
  rewrite create_product_cases. intros H Hp Hid Hk.
  destruct (Dec.le_zero _) as [[|]|]; try (injection H as <- _; discriminate Hp).
  destruct (_ <? 0); [injection H as <- _; discriminate Hp|].
  destruct (product_full_clean B st _); [injection H as <- _; discriminate Hp|].
  destruct (write_fault B st _); [injection H as <- _; discriminate Hp|].
  injection H as <- <-. cbn in Hp. injection Hp as <-.
  cbn in Hid. injection Hid as <-.
  split; [|repeat split].
  unfold Query.resolve_product, run, idle.
  rewrite (get_resolves B MProduct products Product.id (Some id)
             (product_row st input) _); [reflexivity|].
  exists id, (Orm.next_pk (map Product.id (products st))).
  split; [reflexivity|]. split; [exact Hk|].
  cbn [products Orm.add_product]. now apply find_new_row.
Qed.

(** A new product of the seeded store, looked up by the key 5. *)
Lemma create_product_then_lookup_witness :
  Query.resolve_product SpecModels.backend
    (snd (CreateProduct.mutate SpecModels.backend SpecModels.seeded
            (ProductInput.make "Pen" (Dec.DNum 2999) None))) "5"
  = (Return (Product.make (Some 5) "Pen" (Dec.DNum 2999) 0),
     snd (CreateProduct.mutate SpecModels.backend SpecModels.seeded
            (ProductInput.make "Pen" (Dec.DNum 2999) None))).
Proof.
  apply (create_product_then_lookup SpecModels.backend SpecModels.seeded _
           (ProductInput.make "Pen" (Dec.DNum 2999) None)
           (CreateProduct.make (Some (Product.make (Some 5) "Pen" (Dec.DNum 2999) 0))
              (Some "Product created successfully") true)
           _ "5" 5); reflexivity.
Defined.

(** ** Further properties of order creation *)

Lemma insert_return B r put st a u c' :
  insert B r put (mkConnection st a false) = (Return u, c') ->
  c' = mkConnection (put st) a false.
Proof.
  unfold insert. cbn. destruct (write_fault B st r); [discriminate|].
  intros H. now injection H as _ <-.
Qed.

Lemma create_items_return B order ps :
  forall st1 c',
    CreateOrder.create_items B order ps (mkConnection st1 true false) = (Return tt, c') ->
    exists items,
      c' = mkConnection (mkStore (customers st1) (products st1) (orders st1)
                           (order_items st1 ++ items)) true false /\
      map item_fields items = map (item_for order) ps.
Proof.
  induction ps as [|p rest IH]; intros st1 c' H.
  - cbn in H. injection H as <-. exists []. rewrite app_nil_r. now destruct st1.
  - cbn [CreateOrder.create_items] in H.
    apply bind_return in H. destruct H as [i [c1 [H1 H2]]].
    unfold Orm.create_order_item in H1. apply bind_return in H1.
    destruct H1 as [u [c2 [H1 H3]]]. cbn [tables] in H1, H3.
    apply insert_return in H1. subst c2. injection H3 as <- <-.
    destruct (IH _ _ H2) as [items [-> M]].
    match goal with |- context [Orm.add_order_item ?row st1] =>
      exists (row :: items) end.
    cbn. unfold append. rewrite <- app_assoc. split; [reflexivity|]. now rewrite M.
Qed.

(** The atomic block, when it ends normally, has added the order and one
    item per product, and nothing else. *)
Lemma place_order_return B cu acc st o c' :
  CreateOrder.place_order B cu acc (idle st) = (Return o, c') ->
  exists items,
    c' = idle (mkStore (customers st) (products st) (append (orders st) o)
                 (order_items st ++ items)) /\
    o = Order.make (Some (Orm.next_pk (map Order.id (orders st))))
          (Customer.id cu) (snd acc) /\
    map item_fields items = map (item_for o) (fst acc).
Proof.
  unfold CreateOrder.place_order, atomic, idle.
  cbn [tables needs_rollback in_atomic_block].
  match goal with |- context [bind ?m ?k] => set (block := bind m k) end.
  destruct (block (mkConnection st true false)) as [[o1|e] c1] eqn:E;
    [|discriminate].
  unfold block in E. apply bind_return in E. destruct E as [o2 [c2 [E1 E2]]].
  unfold Orm.save_order in E1. apply bind_return in E1.
  destruct E1 as [u [c3 [E1 E3]]]. cbn [tables] in E1, E3.
  apply insert_return in E1. subst c3. injection E3 as <- <-.
  apply bind_return in E2. destruct E2 as [u2 [c4 [E2 E4]]].
  injection E4 as <- <-. destruct u2.
  apply create_items_return in E2. destruct E2 as [items [-> M]].
  cbn [needs_rollback tables]. intros H. injection H as <- <-.
  exists items. cbn. repeat split. exact M.
Qed.

Lemma resolve_products_return B st a product_ids :
  forall acc acc' c',
    CreateOrder.resolve_products B product_ids acc (mkConnection st a false)
    = (Return acc', c') ->
    exists ps,
      Forall2 (resolves B (products st) Product.id) product_ids ps /\
      fst acc' = (fst acc ++ ps)%list.
Proof.
  induction product_ids as [|x rest IH]; intros acc acc' c' H.
  - cbn in H. injection H as <- _. exists []. split; [constructor | now rewrite app_nil_r].
  - cbn [CreateOrder.resolve_products] in H.
    apply bind_return in H. destruct H as [acc1 [c1 [H1 H2]]].
    pose proof (resolve_step_connection B acc x (mkConnection st a false)) as F.
    rewrite H1 in F. cbn in F. subst c1.
    destruct (IH _ _ _ H2) as [ps [HF E]].
    unfold CreateOrder.resolve_step, try_except, bind in H1.
    destruct (Orm.get B MProduct products Product.id x _) as [[p|e] c2] eqn:G.
    + apply get_return in G.
      destruct (Dec.add _ _); [|discriminate]. injection H1 as <-.
      exists (p :: ps). split; [now constructor|].
      rewrite E. cbn. unfold append. now rewrite <- app_assoc.
    + destruct e as [| |[]| |]; discriminate.
Qed.

(** What a successful createOrder has done, on any backend. *)
Lemma create_order_success_shape B st input r st' :
  CreateOrder.mutate B st input = (Return r, st') ->
  CreateOrder.success r = true ->
  exists cu ps o items,
    resolves B (customers st) Customer.id (Some (OrderInput.customer_id input)) cu /\
    Forall2 (resolves B (products st) Product.id) (OrderInput.product_ids input) ps /\
    ps <> [] /\
    r = CreateOrder.make (Some o) (Some "Order created successfully") true /\
    Order.id o = Some (Orm.next_pk (map Order.id (orders st))) /\
    Order.customer o = Customer.id cu /\
    st' = mkStore (customers st) (products st) (append (orders st) o)
            (order_items st ++ items) /\
    map item_fields items = map (item_for o) ps.
Proof.
  rewrite create_order_cases.
  destruct (CreateOrder.attempt B input (idle st)) as [[r1|e] c'] eqn:E;
    [|intros H; injection H as <- _; discriminate].
  intros H _. injection H as <- <-.
  unfold CreateOrder.attempt in E.
  apply bind_return in E. destruct E as [cu [c1 [E1 E]]].
  pose proof (find_customer_connection B (OrderInput.customer_id input) (idle st)) as F.
  rewrite E1 in F. cbn in F. subst c1.
  unfold CreateOrder.find_customer, try_except in E1.
  destruct (Orm.get B MCustomer customers Customer.id _ (idle st)) as [[cu1|e] c2] eqn:G;
    [|destruct e as [| |[]| |]; discriminate].
  injection E1 as <- _. apply get_return in G.
  apply bind_return in E. destruct E as [acc [c3 [E2 E]]].
  pose proof (resolve_products_connection B (OrderInput.product_ids input)
                ([], Dec.DNum 0) (idle st)) as F.
  rewrite E2 in F. cbn in F. subst c3.
  apply resolve_products_return in E2. destruct E2 as [ps [HF Eps]]. cbn in Eps.
  apply bind_return in E. destruct E as [u [c4 [E3 E]]].
  destruct (fst acc) as [|p0 ps0] eqn:Hacc; [discriminate|]. injection E3 as _ <-.
  apply bind_return in E. destruct E as [o [c5 [E4 E5]]].
  injection E5 as <- <-.
  apply place_order_return in E4. destruct E4 as [items [-> [Ho M]]].
  rewrite Hacc in M. subst ps.
  exists cu1, (p0 :: ps0), o, items.
  split; [exact G|]. split; [exact HF|]. split; [discriminate|].
  split; [reflexivity|]. split; [rewrite Ho; reflexivity|].
  split; [rewrite Ho; reflexivity|]. split; [reflexivity | exact M].
Qed.

(** createOrder reports success only when the customer and every product
    id resolved and there was at least one product; it has then added
    exactly one order, for that customer, and one item per product id in
    input order, each for the new order and its product with quantity 1 and
    the product's price, and has not touched customers or products. *)
Theorem create_order_success_means (B : Backend) (st st' : Store)
    (input : OrderInput.t) (r : CreateOrder.t) :
  CreateOrder.mutate B st input = (Return r, st') ->
  CreateOrder.success r = true ->
  exists cu ps o items,
    resolves B (customers st) Customer.id (Some (OrderInput.customer_id input)) cu /\
    Forall2 (resolves B (products st) Product.id) (OrderInput.product_ids input) ps /\
    OrderInput.product_ids input <> [] /\
    CreateOrder.order r = Some o /\
    Order.customer o = Customer.id cu /\
    customers st' = customers st /\
    products st' = products st /\
    orders st' = (orders st ++ [o])%list /\
    order_items st' = (order_items st ++ items)%list /\
    map item_fields items = map (item_for o) ps.
Proof.
  intros H Hs.
  destruct (create_order_success_shape B st input r st' H Hs)
    as [cu [ps [o [items [Hcu [Hps [Hne [-> [_ [Hc [-> M]]]]]]]]]]].
  exists cu, ps, o, items. cbn. repeat split; auto.
  intros E. rewrite E in Hps. inversion Hps. congruence.
Qed.

(** An order for the first customer of the seeded store and two products. *)
Lemma create_order_success_means_witness :
  exists cu ps o items,
    resolves SpecModels.backend (customers SpecModels.seeded) Customer.id (Some "1") cu /\
    Forall2 (resolves SpecModels.backend (products SpecModels.seeded) Product.id)
      [Some "2"; Some "3"] ps /\
    [Some "2"; Some "3"] <> [] /\
    Some (Order.make (Some 3) (Some 1) (Dec.DNum 10998)) = Some o /\
    Order.customer o = Customer.id cu /\
    customers (snd (CreateOrder.mutate SpecModels.backend SpecModels.seeded
                      (OrderInput.make "1" [Some "2"; Some "3"])))
    = customers SpecModels.seeded /\
    products (snd (CreateOrder.mutate SpecModels.backend SpecModels.seeded
                     (OrderInput.make "1" [Some "2"; Some "3"])))
    = products SpecModels.seeded /\
    orders (snd (CreateOrder.mutate SpecModels.backend SpecModels.seeded
                   (OrderInput.make "1" [Some "2"; Some "3"])))
    = (orders SpecModels.seeded ++ [o])%list /\
    order_items (snd (CreateOrder.mutate SpecModels.backend SpecModels.seeded
                        (OrderInput.make "1" [Some "2"; Some "3"])))
    = (order_items SpecModels.seeded ++ items)%list /\
    map item_fields items = map (item_for o) ps.
Proof.
  apply (create_order_success_means SpecModels.backend SpecModels.seeded _
           (OrderInput.make "1" [Some "2"; Some "3"])
           (CreateOrder.make (Some (Order.make (Some 3) (Some 1) (Dec.DNum 10998)))
              (Some "Order created successfully") true)); reflexivity.
Defined.

Lemma create_order_returns_order B st input r st' o :
  CreateOrder.mutate B st input = (Return r, st') ->
  CreateOrder.order r = Some o ->
  CreateOrder.success r = true.
Proof.
  rewrite create_order_cases.
  destruct (CreateOrder.attempt B input (idle st)) as [[r1|e] c'] eqn:E; intros H Ho.
  - injection H as <- _. destruct (attempt_return _ _ _ _ _ E) as [o1 ->]. reflexivity.
  - injection H as <- _. discriminate Ho.
Qed.

Lemma create_order_failure_unchanged B st input r st' :
  CreateOrder.mutate B st input = (Return r, st') ->
  CreateOrder.success r = false ->
  st' = st.
Proof.
  rewrite create_order_cases.
  destruct (CreateOrder.attempt B input (idle st)) as [[r1|e] c'] eqn:E; intros H Hs.
  - injection H as <- _. destruct (attempt_return _ _ _ _ _ E) as [o1 ->]. discriminate Hs.
  - injection H as _ <-. exact (attempt_raise_unchanged _ _ _ _ _ E).
Qed.

Lemma create_order_returns B st input :
  exists r st', CreateOrder.mutate B st input = (Return r, st').
Proof.
  rewrite create_order_cases.
  destruct (CreateOrder.attempt B input (idle st)) as [[r1|e] c']; eexists _, _; reflexivity.
Qed.

Lemma has_key_app {R : Type} (pk : R -> option Z) (table more : list R) k :
  has_key pk table k -> has_key pk (table ++ more) k.
Proof.
  intros [Hk [r [Hin Hr]]]. split; [exact Hk|]. exists r. split; [|exact Hr].
  apply in_or_app. now left.
Qed.

Lemma Forall2_right {A C : Type} (P : A -> C -> Prop) l l' :
  Forall2 P l l' -> forall y, In y l' -> exists x, In x l /\ P x y.
Proof.
  induction 1 as [|x y l l' Hxy _ IH]; intros z Hz; [contradiction|].
  destruct Hz as [<-|Hz].
  - exists x. split; [now left | exact Hxy].
  - destruct (IH z Hz) as [x' [Hin Hp]]. exists x'. split; [now right | exact Hp].
Qed.

(** createOrder keeps the references of the store whole: if every order
    points to a persisted customer and every item to a persisted order and
    a persisted product, the same holds after the call, whatever the
    outcome and the backend. *)
Theorem create_order_keeps_references (B : Backend) (st : Store) (input : OrderInput.t) :
  references_hold st ->
  references_hold (snd (CreateOrder.mutate B st input)).
Proof.
  intros [Ho Hi].
  destruct (create_order_returns B st input) as [r [st' E]]. rewrite E. cbn [snd].
  destruct (CreateOrder.success r) eqn:Hs.
  - destruct (create_order_success_shape B st input r st' E Hs)
      as [cu [ps [o [items [Hcu [Hps [_ [_ [Hid [Hc [-> M]]]]]]]]]]].
    apply resolves_key in Hcu. destruct Hcu as [Hcu [s [k [_ [_ Hk]]]]].
    unfold references_hold, append. cbn [customers products orders order_items].
    split.
    + apply Forall_app. split; [exact Ho|]. constructor; [|constructor].
      rewrite Hc. split; [congruence|]. now exists cu.
    + apply Forall_app. split.
      * eapply Forall_impl; [|exact Hi]. cbn. intros i [H1 H2].
        split; [now apply has_key_app | exact H2].
      * apply Forall_forall. intros i Hin.
        assert (Hf : In (item_fields i) (map (item_for o) ps)).
        { rewrite <- M. now apply in_map. }
        apply in_map_iff in Hf. destruct Hf as [p [Hp Hpin]].
        unfold item_for, item_fields in Hp. injection Hp as Hp1 Hp2 _ _.
        split.
        -- rewrite <- Hp1. split; [congruence|]. exists o. split; [|reflexivity].
           apply in_or_app. right. now left.
        -- rewrite <- Hp2.
           destruct (Forall2_right _ _ _ Hps p Hpin) as [x [_ Hx]].
           apply resolves_key in Hx. destruct Hx as [Hx [s' [k' [_ [_ Hk']]]]].
           split; [congruence|]. now exists p.
  - rewrite (create_order_failure_unchanged B st input r st' E Hs). now split.
Qed.

Lemma has_key_find {R : Type} (pk : R -> option Z) (table : list R) k :
  find (fun x => Orm.pk_is k (pk x)) table <> None -> has_key pk table (Some k).
Proof.
  destruct (find _ table) as [r|] eqn:E; [intros _|congruence].
  apply find_some in E. destruct E as [Hin Hk]. apply pk_is_true in Hk.
  split; [discriminate|]. now exists r.
Qed.

(** The seeded store, whose references are whole, and one more order. *)
Lemma create_order_keeps_references_witness :
  references_hold
    (snd (CreateOrder.mutate SpecModels.backend SpecModels.seeded
            (OrderInput.make "1" [Some "2"; Some "3"]))).
Proof.
  apply create_order_keeps_references.
  split.
  - repeat (constructor; [apply has_key_find; discriminate|]). constructor.
  - repeat (constructor; [split; apply has_key_find; discriminate|]). constructor.
Defined.

(** After a successful createOrder, the order query at any id that
    converts to the new order's key returns exactly the order that the
    mutation returned. *)
Theorem create_order_then_lookup (B : Backend) (st st' : Store)
    (input : OrderInput.t) (r : CreateOrder.t) (o : Order.t) (id : string) (k : Z) :
  CreateOrder.mutate B st input = (Return r, st') ->
  CreateOrder.order r = Some o ->
  Order.id o = Some k ->
  pk_to_python B id = inr k ->
  Query.resolve_order B st' id = (Return o, st').
Proof.
  intros H Ho Hid Hk.
  pose proof (create_order_returns_order B st input r st' o H Ho) as Hs.
  destruct (create_order_success_shape B st input r st' H Hs)
    as [cu [ps [o1 [items [_ [_ [_ [-> [Hid1 [_ [-> _]]]]]]]]]]].
  cbn in Ho. injection Ho as ->.
  unfold Query.resolve_order, run, idle.
  rewrite (get_resolves B MOrder orders Order.id (Some id) o _); [reflexivity|].
  exists id, k. split; [reflexivity|]. split; [exact Hk|].
  cbn [orders]. rewrite Hid in Hid1. injection Hid1 as ->.
  apply find_new_row. congruence.
Qed.

(** A new order on the seeded store, looked up by the key 3. *)
Lemma create_order_then_lookup_witness :
  Query.resolve_order SpecModels.backend
    (snd (CreateOrder.mutate SpecModels.backend SpecModels.seeded
            (OrderInput.make "1" [Some "2"; Some "3"]))) "3"
  = (Return (Order.make (Some 3) (Some 1) (Dec.DNum 10998)),
     snd (CreateOrder.mutate SpecModels.backend SpecModels.seeded
            (OrderInput.make "1" [Some "2"; Some "3"]))).
Proof.
  apply (create_order_then_lookup SpecModels.backend SpecModels.seeded _
           (OrderInput.make "1" [Some "2"; Some "3"])
           (CreateOrder.make (Some (Order.make (Some 3) (Some 1) (Dec.DNum 10998)))
              (Some "Order created successfully") true)
           _ "3" 3); reflexivity.
Defined.

(** ** The phones that validate_phone accepts *)

Lemma append_nil_r (s : string) : s ++ EmptyString = s.
Proof. induction s as [|c s IH]; cbn; [reflexivity | now rewrite IH]. Qed.

Lemma append_assoc (a b c : string) : (a ++ b) ++ c = a ++ (b ++ c).
Proof. induction a as [|x a IH]; cbn; [reflexivity | now rewrite IH]. Qed.

Lemma length_append (a b : string) :
  String.length (a ++ b) = (String.length a + String.length b)%nat.
Proof. induction a as [|x a IH]; cbn; [reflexivity | now rewrite IH]. Qed.

Lemma digit_count_append (a b : string) :
  digit_count (a ++ b) = (digit_count a + digit_count b)%nat.
Proof.
  induction a as [|x a IH]; cbn; [reflexivity|].
  destruct (Re.is_digit x); cbn; now rewrite IH.
Qed.

Lemma all_chars_append P (a b : string) :
  all_chars P (a ++ b) = all_chars P a && all_chars P b.
Proof.
  induction a as [|x a IH]; cbn; [reflexivity|]. rewrite IH. now rewrite andb_assoc.
Qed.

Lemma all_chars_weaken (P Q : ascii -> bool) (w : string) :
  (forall c, P c = true -> Q c = true) -> all_chars P w = true -> all_chars Q w = true.
Proof.
  intros H. induction w as [|c w IH]; cbn; [reflexivity|].
  intros E. apply andb_true_iff in E. destruct E as [E1 E2].
  now rewrite (H c E1), (IH E2).
Qed.

Lemma within_append P l1 h1 d1 e1 l2 h2 d2 e2 w1 w2 :
  within P l1 h1 d1 e1 w1 -> within P l2 h2 d2 e2 w2 ->
  within P (l1 + l2) (h1 + h2) (d1 + d2) (e1 + e2) (w1 ++ w2).
Proof.
  intros [L1 [D1 A1]] [L2 [D2 A2]]. unfold within.
  rewrite length_append, digit_count_append, all_chars_append, A1, A2.
  repeat split; lia.
Qed.

Lemma consumes_weaken (P Q : ascii -> bool) l h dl dh l' h' dl' dh' f :
  (forall c, P c = true -> Q c = true) ->
  (l' <= l)%nat -> (h <= h')%nat -> (dl' <= dl)%nat -> (dh <= dh')%nat ->
  consumes P l h dl dh f -> consumes Q l' h' dl' dh' f.
Proof.
  intros HPQ H1 H2 H3 H4 Hf n s n' s' Hin.
  destruct (Hf n s n' s' Hin) as [w [E [N [L [D A]]]]].
  exists w. split; [exact E|]. split; [exact N|].
  split; [lia|]. split; [lia|]. exact (all_chars_weaken P Q w HPQ A).
Qed.

Lemma consumes_take_char (p : ascii -> bool) :
  consumes p 1 1 0 1 (Re.take_char p).
Proof.
  intros n s n' s' Hin. unfold Re.take_char in Hin. cbn in Hin.
  destruct s as [|c r]; [contradiction|].
  destruct (p c) eqn:E; [|contradiction].
  destruct Hin as [Hin|[]]. injection Hin as <- <-.
  exists (String c EmptyString). split; [reflexivity|]. split; [cbn; lia|].
  unfold within. cbn. rewrite E. destruct (Re.is_digit c); repeat split; lia.
Qed.

Lemma consumes_digit :
  consumes Re.is_digit 1 1 1 1 (Re.run Re.Digit).
Proof.
  intros n s n' s' Hin. cbn in Hin. unfold Re.take_char in Hin. cbn in Hin.
  destruct s as [|c r]; [contradiction|].
  destruct (Re.is_digit c) eqn:E; [|contradiction].
  destruct Hin as [Hin|[]]. injection Hin as <- <-.
  exists (String c EmptyString). split; [reflexivity|]. split; [cbn; lia|].
  unfold within. cbn. rewrite E. repeat split; lia.
Qed.

Lemma consumes_seq P l1 h1 d1 e1 l2 h2 d2 e2 f g :
  consumes P l1 h1 d1 e1 f -> consumes P l2 h2 d2 e2 g ->
  consumes P (l1 + l2) (h1 + h2) (d1 + d2) (e1 + e2) (fun s => flat_map g (f s)).
Proof.
  intros Hf Hg n s n' s' Hin. apply in_flat_map in Hin.
  destruct Hin as [[n1 s1] [H1 H2]].
  destruct (Hf _ _ _ _ H1) as [w1 [E1 [N1 W1]]].
  destruct (Hg _ _ _ _ H2) as [w2 [E2 [N2 W2]]].
  exists (w1 ++ w2). split; [now rewrite append_assoc, <- E2|].
  split; [rewrite length_append; lia|]. now apply within_append.
Qed.

Lemma consumes_nothing P : consumes P 0 0 0 0 (fun s => [s]).
Proof.
  intros n s n' s' [Hin|[]]. injection Hin as <- <-.
  exists EmptyString. split; [reflexivity|]. split; [cbn; lia|].
  unfold within. cbn. repeat split; lia.
Qed.

Lemma consumes_opt P h e f :
  consumes P 0 h 0 e f -> consumes P 0 h 0 e (fun s => (f s ++ [s])%list).
Proof.
  intros Hf n s n' s' Hin. apply in_app_or in Hin. destruct Hin as [Hin|Hin].
  - exact (Hf _ _ _ _ Hin).
  - destruct (consumes_nothing P n s n' s' Hin) as [w [E [N [L [D A]]]]].
    exists w. split; [exact E|]. split; [exact N|]. unfold within.
    repeat split; try lia. exact A.
Qed.

Lemma consumes_times P l h d e f k :
  consumes P l h d e f -> consumes P (k * l) (k * h) (k * d) (k * e) (Re.times k f).
Proof.
  intros Hf. induction k as [|k IH].
  - cbn. apply consumes_nothing.
  - cbn [Re.times Nat.mul]. apply (consumes_seq P l h d e _ _ _ _ f (Re.times k f) Hf IH).
Qed.

Lemma consumes_upto P h e f k :
  consumes P 0 h 0 e f -> consumes P 0 (k * h) 0 (k * e) (Re.upto k f).
Proof.
  intros Hf. induction k as [|k IH].
  - cbn. apply consumes_nothing.
  - cbn [Re.upto Nat.mul].
    apply (consumes_opt P _ _ (fun s => flat_map (Re.upto k f) (f s))).
    exact (consumes_seq P 0 h 0 e 0 _ 0 _ f (Re.upto k f) Hf IH).
Qed.

Lemma consumes_digits lo hi :
  consumes Re.is_digit lo (lo + (hi - lo)) lo (lo + (hi - lo))
    (Re.run (Re.Rep lo hi Re.Digit)).
Proof.
  cbn [Re.run].
  pose proof (consumes_times _ _ _ _ _ _ lo consumes_digit) as H1.
  assert (H0 : consumes Re.is_digit 0 1 0 1 (Re.run Re.Digit)).
  { apply (consumes_weaken Re.is_digit Re.is_digit 1 1 1 1); auto. apply consumes_digit. }
  pose proof (consumes_upto _ _ _ _ (hi - lo) H0) as H2.
  pose proof (consumes_seq _ _ _ _ _ _ _ _ _ _ _ H1 H2) as H3.
  eapply consumes_weaken; [| | | | |exact H3]; auto; lia.
Qed.

Lemma separator_not_digit c : is_separator c = true -> Re.is_digit c = false.
Proof.
  unfold is_separator. cbn. intros H. apply orb_true_iff in H.
  destruct H as [H|H].
  - apply Ascii.eqb_eq in H. now subst.
  - rewrite orb_false_r in H. apply Ascii.eqb_eq in H. now subst.
Qed.

Lemma consumes_sep :
  consumes is_separator 0 1 0 0 (Re.run Re.sep).
Proof.
  unfold Re.sep. cbn [Re.run]. apply consumes_opt.
  intros n s n' s' Hin. unfold Re.take_char in Hin. cbn [snd fst] in Hin.
  destruct s as [|c r]; [contradiction|].
  fold (is_separator c) in Hin.
  destruct (is_separator c) eqn:E; [|contradiction].
  destruct Hin as [Hin|[]]. injection Hin as <- <-.
  exists (String c EmptyString). split; [reflexivity|]. split; [cbn; lia|].
  unfold within. cbn [String.length digit_count all_chars].
  rewrite E, (separator_not_digit c E). repeat split; lia.
Qed.

Lemma consumes_run_seq P l1 h1 d1 e1 l2 h2 d2 e2 a b :
  consumes P l1 h1 d1 e1 (Re.run a) -> consumes P l2 h2 d2 e2 (Re.run b) ->
  consumes P (l1 + l2) (h1 + h2) (d1 + d2) (e1 + e2) (Re.run (Re.Seq a b)).
Proof.
  intros Ha Hb. exact (consumes_seq P _ _ _ _ _ _ _ _ (Re.run a) (Re.run b) Ha Hb).
Qed.

Lemma digit_is_local c : Re.is_digit c = true -> local_char c = true.
Proof. intros H. unfold local_char. now rewrite H. Qed.

Lemma separator_is_local c : is_separator c = true -> local_char c = true.
Proof. intros H. unfold local_char. rewrite H. apply orb_true_r. Qed.

Lemma consumes_local_digits k :
  consumes local_char k k k k (Re.run (Re.Rep k k Re.Digit)).
Proof.
  eapply consumes_weaken; [exact digit_is_local | | | | |exact (consumes_digits k k)]; lia.
Qed.

Lemma consumes_local_sep : consumes local_char 0 1 0 0 (Re.run Re.sep).
Proof.
  eapply consumes_weaken; [exact separator_is_local | | | | |exact consumes_sep]; lia.
Qed.

Lemma eol_state x st : In x (Re.run Re.Eol st) -> x = st /\ ends_subject (snd st).
Proof.
  destruct st as [n s]. cbn [Re.run snd]. destruct s as [|c [|d r]].
  - intros [<-|[]]. split; [reflexivity | now left].
  - destruct (Ascii.eqb c PyStr.newline) eqn:E; [|intros []].
    intros [<-|[]]. split; [reflexivity|]. right. cbn [snd].
    apply Ascii.eqb_eq in E. now subst.
  - intros [].
Qed.

Lemma consumes_eol P : consumes P 0 0 0 0 (Re.run Re.Eol).
Proof.
  intros n s n' s' Hin. apply eol_state in Hin. destruct Hin as [Hin _].
  apply (consumes_nothing P n s n' s'). left. now symmetry.
Qed.

Lemma ends_seq a b :
  (forall st x, In x (Re.run b st) -> ends_subject (snd x)) ->
  forall st x, In x (Re.run (Re.Seq a b) st) -> ends_subject (snd x).
Proof.
  intros Hb st x Hin. cbn [Re.run] in Hin. apply in_flat_map in Hin.
  destruct Hin as [y [_ Hy]]. exact (Hb y x Hy).
Qed.

(** The part of the pattern after the optional country code. *)
Lemma local_part_consumes :
  consumes local_char 10 12 10 10
    (Re.run (Re.seq_of [ Re.Rep 3 3 Re.Digit; Re.sep; Re.Rep 3 3 Re.Digit; Re.sep;
                         Re.Rep 4 4 Re.Digit; Re.Eol ])).
Proof.
  cbn [Re.seq_of].
  pose proof (consumes_local_digits 3) as D3.
  pose proof (consumes_local_digits 4) as D4.
  pose proof consumes_local_sep as S1.
  pose proof (consumes_eol local_char) as E.
  pose proof (consumes_run_seq _ _ _ _ _ _ _ _ _ _ _ D4 E) as H1.
  pose proof (consumes_run_seq _ _ _ _ _ _ _ _ _ _ _ S1 H1) as H2.
  pose proof (consumes_run_seq _ _ _ _ _ _ _ _ _ _ _ D3 H2) as H3.
  pose proof (consumes_run_seq _ _ _ _ _ _ _ _ _ _ _ S1 H3) as H4.
  exact (consumes_run_seq _ _ _ _ _ _ _ _ _ _ _ D3 H4).
Qed.

Lemma local_part_ends st x :
  In x (Re.run (Re.seq_of [ Re.Rep 3 3 Re.Digit; Re.sep; Re.Rep 3 3 Re.Digit; Re.sep;
                            Re.Rep 4 4 Re.Digit; Re.Eol ]) st) ->
  ends_subject (snd x).
Proof.
  cbn [Re.seq_of]. revert st x.
  do 5 apply ends_seq.
  intros st x Hin. apply eol_state in Hin. destruct Hin as [-> H]. exact H.
Qed.

(** The country code after its plus sign: one to three digits and an
    optional separator. *)
Lemma country_code_consumes :
  consumes local_char 1 4 1 3 (Re.run (Re.Seq (Re.Rep 1 3 Re.Digit) Re.sep)).
Proof.
  assert (D : consumes local_char 1 3 1 3 (Re.run (Re.Rep 1 3 Re.Digit))).
  { eapply consumes_weaken; [exact digit_is_local | | | | |exact (consumes_digits 1 3)];
      cbn; lia. }
  exact (consumes_run_seq _ _ _ _ _ _ _ _ _ _ _ D consumes_local_sep).
Qed.

(** What [re.match] of the phone pattern accepts: ten digits in groups of
    three, three and four with at most one hyphen or space between the
    groups; or a plus sign, one to three more digits and an optional
    separator before such a number; in both cases possibly followed by one
    newline. *)
Lemma phone_match_shape (p : string) :
  Re.re_match Re.phone_pattern p = true ->
  exists w,
    (p = w \/ p = w ++ String PyStr.newline EmptyString) /\
    (within local_char 10 12 10 10 w \/
     exists w', w = String "+"%char w' /\ within local_char 11 16 11 13 w').
Proof.
  unfold Re.re_match.
  destruct (Re.run Re.phone_pattern (O, p)) as [|x l] eqn:E; [discriminate|]. intros _.
  assert (Hin : In x (Re.run Re.phone_pattern (O, p))) by (rewrite E; now left).
  clear E l. unfold Re.phone_pattern in Hin.
  cbn [Re.seq_of] in Hin. cbn [Re.run fst flat_map] in Hin.
  rewrite app_nil_r in Hin. apply in_flat_map in Hin.
  destruct Hin as [y [Hy Hx]].
  pose proof (local_part_ends y x) as Hend. cbn [Re.seq_of] in Hend.
  cbn [Re.run] in Hend. specialize (Hend Hx).
  pose proof local_part_consumes as HT. cbn [Re.seq_of] in HT.
  destruct x as [n' s']. destruct y as [n1 s1].
  destruct (HT n1 s1 n' s' Hx) as [w2 [E2 [_ W2]]].
  cbn [snd] in Hend.
  apply in_app_or in Hy. destruct Hy as [Hy|[Hy|[]]].
  - apply in_flat_map in Hy. destruct Hy as [[n0 s0] [H0 Hy]].
    unfold Re.take_char in H0. cbn [snd fst] in H0.
    destruct p as [|c r]; [contradiction|].
    destruct (Ascii.eqb "+" c) eqn:Ec; [|contradiction].
    apply Ascii.eqb_eq in Ec. subst c. destruct H0 as [H0|[]].
    injection H0 as <- <-.
    destruct (country_code_consumes 1%nat r n1 s1 Hy) as [w1 [E1 [_ W1]]].
    exists (String "+" (w1 ++ w2)). split.
    + rewrite E1, E2. destruct Hend as [-> | ->].
      * left. now rewrite append_nil_r.
      * right. cbn [String.append]. now rewrite append_assoc.
    + right. exists (w1 ++ w2). split; [reflexivity|].
      exact (within_append _ _ _ _ _ _ _ _ _ _ _ W1 W2).
  - injection Hy as <- <-. exists w2. split; [|now left].
    rewrite E2. destruct Hend as [-> | ->].
    + left. now rewrite append_nil_r.
    + right. reflexivity.
Qed.

Lemma digit_count_le_length (s : string) : (digit_count s <= String.length s)%nat.
Proof.
  induction s as [|c s IH]; cbn; [lia|]. destruct (Re.is_digit c); lia.
Qed.

(** The pattern refuses every phone made of a plus sign and exactly ten
    digits, the first format that the error message of validate_phone
    recommends. *)
Lemma plus_ten_digits_no_match (d : string) :
  digits 10 d -> Re.re_match Re.phone_pattern (String "+"%char d) = false.
Proof.
  intros [Hd Hl]. destruct (Re.re_match _ _) eqn:E; [|reflexivity]. exfalso.
  apply phone_match_shape in E. destruct E as [w [Hp Hw]].
  assert (Hnl : forall w0, d <> w0 ++ String PyStr.newline EmptyString).
  { intros w0 H. rewrite H, all_chars_append in Hd. cbn in Hd.
    rewrite andb_false_r in Hd. discriminate. }
  destruct Hw as [[Hlen [_ Hall]] | [w' [-> [_ [Hdig _]]]]].
  - destruct w as [|c w0]; [cbn in Hlen; lia|].
    assert (c = "+"%char) as ->.
    { destruct Hp as [Hp|Hp]; cbn in Hp; now injection Hp as <- _. }
    cbn in Hall. discriminate.
  - destruct Hp as [Hp|Hp]; cbn in Hp; injection Hp as Hp.
    + subst w'. pose proof (digit_count_le_length d). lia.
    + exact (Hnl w' Hp).
Qed.

(** createCustomer refuses every phone made of a plus sign and exactly ten
    digits, on any store and whatever the other fields are: the format that
    its own error message recommends first can never be entered. *)
Theorem create_customer_refuses_plus_ten_digits (B : Backend) (st : Store)
    (name email d : string) :
  digits 10 d ->
  exists r,
    CreateCustomer.mutate B st (CustomerInput.make name email (Some (String "+"%char d)))
    = (Return r, st) /\
    CreateCustomer.customer r = None /\
    CreateCustomer.success r = false.
Proof.
  intros Hd. rewrite create_customer_cases.
  cbn [CustomerInput.email CustomerInput.phone].
  destruct (existsb _ _); [eexists; repeat split|].
  unfold CreateCustomer.validate_phone. cbn [PyStr.truthy].
  rewrite (plus_ten_digits_no_match d Hd). cbn.
  eexists. repeat split.
Qed.

(** Alice's phone from the seed script. *)
Lemma create_customer_refuses_plus_ten_digits_witness :
  exists r,
    CreateCustomer.mutate SpecModels.backend empty_store
      (CustomerInput.make "Alice Johnson" "alice@example.com" (Some "+1234567890"))
    = (Return r, empty_store) /\
    CreateCustomer.customer r = None /\
    CreateCustomer.success r = false.
Proof.
  apply (create_customer_refuses_plus_ten_digits SpecModels.backend empty_store
           "Alice Johnson" "alice@example.com" "1234567890").
  split; reflexivity.
Defined.

(** *** The formats that are accepted *)

Lemma accepts_run_seq a b w1 w2 rest :
  accepts (Re.run a) w1 (w2 ++ rest) -> accepts (Re.run b) w2 rest ->
  accepts (Re.run (Re.Seq a b)) (w1 ++ w2) rest.
Proof.
  intros Ha Hb n. cbn [Re.run]. apply in_flat_map.
  exists ((n + String.length w1)%nat, w2 ++ rest). split.
  - rewrite append_assoc. apply Ha.
  - rewrite length_append, Nat.add_assoc. apply Hb.
Qed.

Lemma accepts_opt_skip a rest : accepts (Re.run (Re.Opt a)) EmptyString rest.
Proof.
  intros n. cbn [Re.run]. apply in_or_app. right. left.
  cbn. now rewrite Nat.add_0_r.
Qed.

Lemma accepts_opt_take a w rest :
  accepts (Re.run a) w rest -> accepts (Re.run (Re.Opt a)) w rest.
Proof.
  intros Ha n. cbn [Re.run]. apply in_or_app. left. apply Ha.
Qed.

Lemma accepts_times_digits w rest :
  all_chars Re.is_digit w = true ->
  accepts (Re.times (String.length w) (Re.run Re.Digit)) w rest.
Proof.
  revert rest. induction w as [|c w IH]; intros rest Hw n.
  - cbn. left. now rewrite Nat.add_0_r.
  - cbn in Hw. apply andb_true_iff in Hw. destruct Hw as [Hc Hw].
    cbn [String.length Re.times]. apply in_flat_map.
    exists (S n, w ++ rest). split.
    + cbn. unfold Re.take_char. cbn. rewrite Hc. now left.
    + replace (n + S (String.length w))%nat with (S n + String.length w)%nat by lia.
      now apply IH.
Qed.

Lemma accepts_upto_digits k w rest :
  all_chars Re.is_digit w = true -> (String.length w <= k)%nat ->
  accepts (Re.upto k (Re.run Re.Digit)) w rest.
Proof.
  revert w rest. induction k as [|k IH]; intros w rest Hw Hl n.
  - destruct w; [|cbn in Hl; lia]. cbn. left. now rewrite Nat.add_0_r.
  - destruct w as [|c w].
    + cbn [Re.upto]. apply in_or_app. right. left. cbn. now rewrite Nat.add_0_r.
    + cbn in Hw. apply andb_true_iff in Hw. destruct Hw as [Hc Hw]. cbn in Hl.
      cbn [Re.upto]. apply in_or_app. left. apply in_flat_map.
      exists (S n, w ++ rest). split.
      * cbn. unfold Re.take_char. cbn. rewrite Hc. now left.
      * replace (n + String.length (String c w))%nat
          with (S n + String.length w)%nat by (cbn; lia).
        apply IH; [exact Hw | lia].
Qed.

Lemma string_split (k : nat) (w : string) :
  (k <= String.length w)%nat ->
  exists w1 w2, w = w1 ++ w2 /\ String.length w1 = k.
Proof.
  revert w. induction k as [|k IH]; intros w Hl.
  - exists EmptyString, w. split; reflexivity.
  - destruct w as [|c w]; [cbn in Hl; lia|]. cbn in Hl.
    destruct (IH w) as [w1 [w2 [E L]]]; [lia|].
    exists (String c w1), w2. cbn. split; [now rewrite E | now rewrite L].
Qed.

Lemma accepts_digits lo hi w rest :
  all_chars Re.is_digit w = true ->
  (lo <= String.length w <= lo + (hi - lo))%nat ->
  accepts (Re.run (Re.Rep lo hi Re.Digit)) w rest.
Proof.
  intros Hw Hl.
  destruct (string_split lo w) as [w1 [w2 [E L]]]; [lia|]. subst w.
  rewrite all_chars_append in Hw. apply andb_true_iff in Hw. destruct Hw as [H1 H2].
  rewrite length_append in Hl.
  intros n. cbn [Re.run]. apply in_flat_map.
  exists ((n + String.length w1)%nat, w2 ++ rest). split.
  - rewrite append_assoc, <- L. now apply accepts_times_digits.
  - rewrite length_append, Nat.add_assoc.
    apply accepts_upto_digits; [exact H2 | lia].
Qed.

Lemma accepts_sep s rest : optional_separator s -> accepts (Re.run Re.sep) s rest.
Proof.
  intros [-> | [c [Hc ->]]]; unfold Re.sep.
  - apply accepts_opt_skip.
  - apply accepts_opt_take. intros n. cbn [Re.run]. unfold Re.take_char.
    cbn [snd fst String.append]. fold (is_separator c). rewrite Hc.
    left. f_equal. cbn. lia.
Qed.

(** validate_phone accepts every phone of the pattern's formats: an
    optional country prefix (a plus sign, one to three digits and an
    optional separator), then three digits, three digits and four digits,
    with nothing, a hyphen or a space between the groups. *)
Theorem validate_phone_accepts_formats (pre a s1 b s2 c : string) :
  country_prefix pre ->
  digits 3 a -> optional_separator s1 ->
  digits 3 b -> optional_separator s2 ->
  digits 4 c ->
  CreateCustomer.validate_phone (Some (pre ++ a ++ s1 ++ b ++ s2 ++ c)) = Return true.
Proof.
  intros Hpre [Ha La] Hs1 [Hb Lb] Hs2 [Hc Lc].
  assert (Hlocal : accepts
            (Re.run (Re.seq_of [ Re.Rep 3 3 Re.Digit; Re.sep; Re.Rep 3 3 Re.Digit;
                                 Re.sep; Re.Rep 4 4 Re.Digit; Re.Eol ]))
            (a ++ s1 ++ b ++ s2 ++ c) EmptyString).
  { cbn [Re.seq_of].
    apply accepts_run_seq; [apply accepts_digits; [exact Ha | lia]|].
    apply accepts_run_seq; [now apply accepts_sep|].
    apply accepts_run_seq; [apply accepts_digits; [exact Hb | lia]|].
    apply accepts_run_seq; [now apply accepts_sep|].
    rewrite <- (append_nil_r c) at 1.
    apply accepts_run_seq; [apply accepts_digits; [exact Hc | lia]|].
    intros n. cbn. left. now rewrite Nat.add_0_r. }
  assert (Hall : accepts
            (Re.run (Re.Seq
                       (Re.Opt (Re.seq_of [Re.Lit "+"%char; Re.Rep 1 3 Re.Digit; Re.sep]))
                       (Re.seq_of [ Re.Rep 3 3 Re.Digit; Re.sep; Re.Rep 3 3 Re.Digit;
                                    Re.sep; Re.Rep 4 4 Re.Digit; Re.Eol ])))
            (pre ++ a ++ s1 ++ b ++ s2 ++ c) EmptyString).
  { apply accepts_run_seq; [|exact Hlocal].
    destruct Hpre as [-> | [cc [s0 [-> [Hcc [Lcc Hs0]]]]]].
    - apply accepts_opt_skip.
    - apply accepts_opt_take. cbn [Re.seq_of].
      change (String "+"%char (cc ++ s0))
        with (String "+"%char EmptyString ++ (cc ++ s0)).
      apply accepts_run_seq.
      + intros n. cbn [Re.run]. unfold Re.take_char. cbn. left. f_equal. lia.
      + apply accepts_run_seq; [apply accepts_digits; [exact Hcc | lia]|].
        now apply accepts_sep. }
  assert (Hm : Re.re_match Re.phone_pattern (pre ++ a ++ s1 ++ b ++ s2 ++ c) = true).
  { specialize (Hall O). rewrite append_nil_r in Hall.
    unfold Re.re_match, Re.phone_pattern.
    cbn [Re.seq_of] in *. cbn [Re.run fst flat_map]. rewrite app_nil_r.
    cbn [Re.run] in Hall.
    destruct (flat_map _ _); [contradiction | reflexivity]. }
  unfold CreateCustomer.validate_phone.
  destruct (PyStr.truthy _); [|reflexivity]. now rewrite Hm.
Qed.

(** The phone +44 555-123-4567. *)
Lemma validate_phone_accepts_formats_witness :
  CreateCustomer.validate_phone (Some "+44 555-123-4567") = Return true.
Proof.
  apply (validate_phone_accepts_formats "+44 " "555" "-" "123" "-" "4567").
  - right. exists "44", " ". split; [reflexivity|]. split; [reflexivity|].
    split; [cbn; lia|]. right. exists " "%char. split; reflexivity.
  - split; reflexivity.
  - right. exists "-"%char. split; reflexivity.
  - split; reflexivity.
  - right. exists "-"%char. split; reflexivity.
  - split; reflexivity.
Defined.

(** *** The accepted phones, exactly *)

Lemma run_seq_inv a b st x :
  In x (Re.run (Re.Seq a b) st) -> exists y, In y (Re.run a st) /\ In x (Re.run b y).
Proof. cbn [Re.run]. intros H. apply in_flat_map in H. exact H. Qed.

Lemma run_opt_inv a st x :
  In x (Re.run (Re.Opt a) st) -> In x (Re.run a st) \/ x = st.
Proof.
  cbn [Re.run]. intros H. apply in_app_or in H.
  destruct H as [H|[H|[]]]; [now left | right; now symmetry].
Qed.

Lemma run_bol_inv st x : In x (Re.run Re.Bol st) -> x = st.
Proof.
  cbn [Re.run]. destruct (fst st); [|intros []]. intros [<-|[]]. reflexivity.
Qed.

Lemma run_lit_inv ch n s x :
  In x (Re.run (Re.Lit ch) (n, s)) -> exists r, s = String ch r /\ x = (S n, r).
Proof.
  cbn [Re.run]. unfold Re.take_char. cbn [fst snd].
  destruct s as [|c r]; [intros []|].
  destruct (Ascii.eqb ch c) eqn:E; [|intros []].
  apply Ascii.eqb_eq in E. subst c. intros [<-|[]]. now exists r.
Qed.

Lemma run_digits_inv lo hi n s x :
  In x (Re.run (Re.Rep lo hi Re.Digit) (n, s)) ->
  exists w, s = w ++ snd x /\ all_chars Re.is_digit w = true /\
            (lo <= String.length w <= lo + (hi - lo))%nat.
Proof.
  destruct x as [n' s']. intros H.
  destruct (consumes_digits lo hi n s n' s' H) as [w [E [_ [L [_ A]]]]].
  exists w. cbn [snd]. auto.
Qed.

Lemma run_sep_inv n s x :
  In x (Re.run Re.sep (n, s)) -> exists w, s = w ++ snd x /\ optional_separator w.
Proof.
  destruct x as [n' s']. intros H.
  destruct (consumes_sep n s n' s' H) as [w [E [_ [L [_ A]]]]].
  exists w. split; [exact E|]. destruct w as [|c [|d w]].
  - now left.
  - right. exists c. cbn [all_chars] in A. rewrite andb_true_r in A.
    split; [exact A | reflexivity].
  - cbn in L. lia.
Qed.

(** The part of the pattern after the optional country code, read back
    from a match. *)
Lemma local_part_inversion st x :
  In x (Re.run (Re.seq_of [ Re.Rep 3 3 Re.Digit; Re.sep; Re.Rep 3 3 Re.Digit; Re.sep;
                            Re.Rep 4 4 Re.Digit; Re.Eol ]) st) ->
  exists a s1 b s2 c tail,
    snd st = a ++ s1 ++ b ++ s2 ++ c ++ tail /\
    digits 3 a /\ optional_separator s1 /\
    digits 3 b /\ optional_separator s2 /\
    digits 4 c /\ ends_subject tail.
Proof.
  cbn [Re.seq_of]. destruct st as [n s]. intros H.
  apply run_seq_inv in H. destruct H as [[n1 r1] [H1 H]].
  apply run_seq_inv in H. destruct H as [[n2 r2] [H2 H]].
  apply run_seq_inv in H. destruct H as [[n3 r3] [H3 H]].
  apply run_seq_inv in H. destruct H as [[n4 r4] [H4 H]].
  apply run_seq_inv in H. destruct H as [[n5 r5] [H5 H]].
  apply eol_state in H. destruct H as [_ Hend].
  apply run_digits_inv in H1. destruct H1 as [a [Ea [Aa La]]].
  apply run_sep_inv in H2. destruct H2 as [s1 [E1 S1]].
  apply run_digits_inv in H3. destruct H3 as [b [Eb [Ab Lb]]].
  apply run_sep_inv in H4. destruct H4 as [s2 [E2 S2]].
  apply run_digits_inv in H5. destruct H5 as [c [Ec [Ac Lc]]].
  cbn [snd] in *. exists a, s1, b, s2, c, r5.
  split; [now rewrite Ea, E1, Eb, E2, Ec|].
  split; [split; [exact Aa | lia]|]. split; [exact S1|].
  split; [split; [exact Ab | lia]|]. split; [exact S2|].
  split; [split; [exact Ac | lia] | exact Hend].
Qed.

(** A match of the phone pattern, read back: the subject is made of the
    parts of the pattern, one after the other. *)
Lemma phone_match_inversion (p : string) :
  Re.re_match Re.phone_pattern p = true ->
  exists pre a s1 b s2 c tail,
    p = pre ++ a ++ s1 ++ b ++ s2 ++ c ++ tail /\
    country_prefix pre /\
    digits 3 a /\ optional_separator s1 /\
    digits 3 b /\ optional_separator s2 /\
    digits 4 c /\ ends_subject tail.
Proof.
  unfold Re.re_match.
  destruct (Re.run Re.phone_pattern (O, p)) as [|x l] eqn:E; [discriminate|]. intros _.
  assert (Hin : In x (Re.run Re.phone_pattern (O, p))) by (rewrite E; now left).
  clear E l. unfold Re.phone_pattern in Hin. cbn [Re.seq_of] in Hin.
  apply run_seq_inv in Hin. destruct Hin as [y0 [H0 Hin]].
  apply run_bol_inv in H0. subst y0.
  apply run_seq_inv in Hin. destruct Hin as [[ny ry] [Hy Hx]].
  destruct (local_part_inversion (ny, ry) x Hx)
    as [a [s1 [b [s2 [c [tail [Hsplit Hparts]]]]]]].
  cbn [snd] in Hsplit.
  apply run_opt_inv in Hy. destruct Hy as [Hy|Hy].
  - apply run_seq_inv in Hy. destruct Hy as [y1 [Hl Hy]].
    apply run_lit_inv in Hl. destruct Hl as [r [-> ->]].
    apply run_seq_inv in Hy. destruct Hy as [[n2 r2] [Hd Hs]].
    apply run_digits_inv in Hd. destruct Hd as [cc [Ecc [Acc Lcc]]].
    apply run_sep_inv in Hs. destruct Hs as [s0 [E0 Hs0]].
    cbn [snd] in *.
    exists (String "+"%char (cc ++ s0)), a, s1, b, s2, c, tail. split.
    + rewrite Ecc, E0, Hsplit. cbn [String.append]. now rewrite append_assoc.
    + split; [|exact Hparts]. right. exists cc, s0.
      split; [reflexivity|]. split; [exact Acc|]. split; [lia | exact Hs0].
  - injection Hy as _ ->.
    exists EmptyString, a, s1, b, s2, c, tail.
    split; [exact Hsplit|]. split; [now left | exact Hparts].
Qed.

Lemma accepts_eol tail : ends_subject tail -> accepts (Re.run Re.Eol) EmptyString tail.
Proof.
  intros [-> | ->] n; cbn; left; now rewrite Nat.add_0_r.
Qed.

(** The pattern matches every subject made of its parts. *)
Lemma phone_pattern_accepts (pre a s1 b s2 c tail : string) :
  country_prefix pre ->
  digits 3 a -> optional_separator s1 ->
  digits 3 b -> optional_separator s2 ->
  digits 4 c -> ends_subject tail ->
  Re.re_match Re.phone_pattern (pre ++ a ++ s1 ++ b ++ s2 ++ c ++ tail) = true.
Proof.
  intros Hpre [Ha La] Hs1 [Hb Lb] Hs2 [Hc Lc] Htail.
  assert (Hlocal : accepts
            (Re.run (Re.seq_of [ Re.Rep 3 3 Re.Digit; Re.sep; Re.Rep 3 3 Re.Digit;
                                 Re.sep; Re.Rep 4 4 Re.Digit; Re.Eol ]))
            (a ++ s1 ++ b ++ s2 ++ c) tail).
  { cbn [Re.seq_of].
    apply accepts_run_seq; [apply accepts_digits; [exact Ha | lia]|].
    apply accepts_run_seq; [now apply accepts_sep|].
    apply accepts_run_seq; [apply accepts_digits; [exact Hb | lia]|].
    apply accepts_run_seq; [now apply accepts_sep|].
    rewrite <- (append_nil_r c) at 1.
    apply accepts_run_seq; [apply accepts_digits; [exact Hc | lia]|].
    now apply accepts_eol. }
  assert (Hall : accepts
            (Re.run (Re.Seq
                       (Re.Opt (Re.seq_of [Re.Lit "+"%char; Re.Rep 1 3 Re.Digit; Re.sep]))
                       (Re.seq_of [ Re.Rep 3 3 Re.Digit; Re.sep; Re.Rep 3 3 Re.Digit;
                                    Re.sep; Re.Rep 4 4 Re.Digit; Re.Eol ])))
            (pre ++ a ++ s1 ++ b ++ s2 ++ c) tail).
  { apply accepts_run_seq; [|exact Hlocal].
    destruct Hpre as [-> | [cc [s0 [-> [Hcc [Lcc Hs0]]]]]].
    - apply accepts_opt_skip.
    - apply accepts_opt_take. cbn [Re.seq_of].
      change (String "+"%char (cc ++ s0))
        with (String "+"%char EmptyString ++ (cc ++ s0)).
      apply accepts_run_seq.
      + intros n. cbn [Re.run]. unfold Re.take_char. cbn. left. f_equal. lia.
      + apply accepts_run_seq; [apply accepts_digits; [exact Hcc | lia]|].
        now apply accepts_sep. }
  specialize (Hall O). rewrite !append_assoc in Hall.
  unfold Re.re_match, Re.phone_pattern.
  cbn [Re.seq_of] in *. cbn [Re.run fst flat_map]. rewrite app_nil_r.
  cbn [Re.run] in Hall.
  destruct (flat_map _ _); [contradiction | reflexivity].
Qed.

(** validate_phone lets a phone through exactly when it is the empty
    string, which is not checked, or is made of the parts of the pattern
    and nothing else: an optional country prefix (a plus sign, one to three
    digits and an optional separator), then three digits, three digits and
    four digits with nothing or one hyphen or space between the groups, and
    at the end nothing or one newline.  A separator in any other place, a
    second separator between two groups, a letter or an eleventh digit are
    all refused. *)
Theorem validate_phone_accepts_only (p : string) :
  CreateCustomer.validate_phone (Some p) = Return true <->
  p = EmptyString \/
  exists pre a s1 b s2 c tail,
    p = pre ++ a ++ s1 ++ b ++ s2 ++ c ++ tail /\
    country_prefix pre /\
    digits 3 a /\ optional_separator s1 /\
    digits 3 b /\ optional_separator s2 /\
    digits 4 c /\ ends_subject tail.
Proof.
  unfold CreateCustomer.validate_phone. split.
  - destruct p as [|ch r]; [now left|].
    cbn [PyStr.truthy]. destruct (Re.re_match Re.phone_pattern (String ch r)) eqn:E;
      [|discriminate].
    intros _. right. now apply phone_match_inversion.
  - intros [-> | [pre [a [s1 [b [s2 [c [tail [-> [Hpre [Ha [H1 [Hb [H2 [Hc Ht]]]]]]]]]]]]]]].
    + reflexivity.
    + rewrite (phone_pattern_accepts pre a s1 b s2 c tail Hpre Ha H1 Hb H2 Hc Ht).
      now destruct (PyStr.truthy _).
Qed.

(** The phone 123-456-7890 is let through, so it is made of the parts of
    the pattern; the phone --1234567890 is not made of them, so it is
    refused. *)
Lemma validate_phone_accepts_only_witness :
  ("123-456-7890" = EmptyString \/
   exists pre a s1 b s2 c tail,
     "123-456-7890" = pre ++ a ++ s1 ++ b ++ s2 ++ c ++ tail /\
     country_prefix pre /\
     digits 3 a /\ optional_separator s1 /\
     digits 3 b /\ optional_separator s2 /\
     digits 4 c /\ ends_subject tail) /\
  ~ ("--1234567890" = EmptyString \/
     exists pre a s1 b s2 c tail,
       "--1234567890" = pre ++ a ++ s1 ++ b ++ s2 ++ c ++ tail /\
       country_prefix pre /\
       digits 3 a /\ optional_separator s1 /\
       digits 3 b /\ optional_separator s2 /\
       digits 4 c /\ ends_subject tail).
Proof.
  split.
  - apply (proj1 (validate_phone_accepts_only "123-456-7890")). reflexivity.
  - intros H. apply (proj2 (validate_phone_accepts_only "--1234567890")) in H.
    discriminate H.
Defined.

(** ** Edge behaviour of the bulk loop and of order creation *)

Lemma step_null B acc c :
  BulkCreateCustomers.step B acc None c = (Raise (AttributeError none_attribute_text), c).
Proof. reflexivity. Qed.

(** A null entry anywhere in the list makes bulkCreateCustomers raise
    instead of answering: the handler of the loop reads the entry's email
    itself.  The customers of the entries before it are rolled back, so the
    store is as it was. *)
Theorem bulk_null_entry_aborts (B : Backend) (st : Store)
    (before : list CustomerInput.t) (after : list (option CustomerInput.t)) :
  BulkCreateCustomers.mutate B st (map Some before ++ None :: after)
  = (Raise (AttributeError none_attribute_text), st).
Proof.
  unfold BulkCreateCustomers.mutate, run, BulkCreateCustomers.body, atomic, idle.
  unfold bind at 1. cbn [tables needs_rollback in_atomic_block].
  rewrite loop_app. unfold bind at 1.
  destruct (loop_outcomes B before ([], []) (mkConnection st true false))
    as [os [c1 [E _]]].
  rewrite E. cbn [BulkCreateCustomers.loop]. unfold bind. rewrite step_null.
  reflexivity.
Qed.

(** createOrder never writes to customers or products, whatever the
    outcome and the backend: an order changes no customer, and it leaves the
    stock of the products it orders as it was. *)
Theorem create_order_leaves_customers_and_products (B : Backend) (st : Store)
    (input : OrderInput.t) :
  customers (snd (CreateOrder.mutate B st input)) = customers st /\
  products (snd (CreateOrder.mutate B st input)) = products st.
Proof.
  destruct (create_order_returns B st input) as [r [st' E]]. rewrite E. cbn [snd].
  destruct (CreateOrder.success r) eqn:Hs.
  - destruct (create_order_success_shape B st input r st' E Hs)
      as [cu [ps [o [items [_ [_ [_ [_ [_ [_ [-> _]]]]]]]]]]].
    split; reflexivity.
  - rewrite (create_order_failure_unchanged B st input r st' E Hs). split; reflexivity.
Qed.
